(** * BAC time-series simulator of the standard-drink calculator

    Shallow embedding of [src/components/DrinkGraph.tsx] (the [points] and
    [soberTimeInfo] computations) and of the standard-drink formula of
    [src/services/geminiService.ts].

    Numbers.  Timestamps, the step counter and the clock are epoch
    milliseconds and small integers: they are modelled as [Z].  Alcohol
    quantities, burn rates, the body weight and BAC values are JavaScript
    numbers used as real quantities: they are modelled as exact rationals
    [Q]; rounding of binary floating point is outside this model.  Module
    [F64] repeats the simulation on binary64 floats, for the properties
    that rounding or overflow decides: the order in which tied drinks are
    added, and the finiteness of a sample. *)

From Stdlib Require Import ZArith QArith Qminmax List Ascii String Bool Lia Lqa.
From Stdlib Require Import Permutation Sorted.
From Stdlib Require Import PrimFloat.

#[local] Set Warnings "-inexact-float".
Import ListNotations.

Local Open Scope Z_scope.

(** ** Data model ([types]) *)

Record Drink : Type := mkDrink {
  id : string;
  name : string;
  volumeMl : Q;
  abv : Q;
  standardDrinks : Q;
  timestamp : Z
}.

Inductive Gender : Type := male | female.

(** One element of [dataPoints]: [{ time, bac, label }]. *)
Module Point.
Record t : Type := mk { time : Z; bac : Q; label : string }.
End Point.

(** ** Standard-drink formula ([calculateStandardDrinks], [addDrink]) *)

Definition calculateStandardDrinks (volumeMl abv : Q) : Q :=
  ((volumeMl / 1000) * abv * 0.789)%Q.

(** ** Boolean comparisons on rationals *)

Definition Qltb (x y : Q) : bool := negb (Qle_bool y x).
Definition Qleb (x y : Q) : bool := Qle_bool x y.

(** ** [[...drinks].sort((a, b) => a.timestamp - b.timestamp)]

    [Array.prototype.sort] is a stable sort; a stable sort by a key has one
    possible result, which insertion from the right computes. *)

Fixpoint insert (d : Drink) (l : list Drink) : list Drink :=
  match l with
  | [] => [d]
  | x :: xs =>
      if timestamp d <=? timestamp x then d :: x :: xs
      else x :: insert d xs
  end.

Fixpoint sortDrinks (l : list Drink) : list Drink :=
  match l with
  | [] => []
  | d :: ds => insert d (sortDrinks ds)
  end.

(** The order the comparator [(a, b) => a.timestamp - b.timestamp] sorts
    by. *)
Definition byTimestamp (a b : Drink) : Prop := timestamp a <= timestamp b.

(** ** The simulation ([points]) *)

(** [r]: Widmark factor, [gender === 'male' ? 0.68 : 0.55]. *)
Definition r (gender : Gender) : Q :=
  match gender with male => 0.68%Q | female => 0.55%Q end.

(** [toBAC]: [w = weight > 0 ? weight : 1; netSD / (w * r)]. *)
Definition effectiveWeight (weight : Q) : Q :=
  if Qltb 0 weight then weight else 1%Q.

Definition toBAC (weight : Q) (gender : Gender) (netSD : Q) : Q :=
  (netSD / (effectiveWeight weight * r gender))%Q.

Definition stepMs : Z := 5 * 60 * 1000.
Definition maxSteps : Z := (24 * 60) / 5.
Definition hourMs : Z := 60 * 60 * 1000.

Definition stepBurnFirstHour (firstHourBurn : Q) : Q :=
  ((firstHourBurn / 60) * 5)%Q.
Definition stepBurnSubsequent (subsequentHourBurn : Q) : Q :=
  ((subsequentHourBurn / 60) * 5)%Q.

(** [l.forEach(d => acc += d.standardDrinks)], left to right. *)
Definition addAll (acc : Q) (l : list Drink) : Q :=
  fold_left (fun a d => (a + standardDrinks d)%Q) l acc.

(** [d => Math.abs(d.timestamp - startTime) < 1000] *)
Definition isInitial (startTime : Z) (d : Drink) : bool :=
  Z.abs (timestamp d - startTime) <? 1000.

(** [d => d.timestamp > currentTime && d.timestamp <= nextTime] *)
Definition inInterval (currentTime nextTime : Z) (d : Drink) : bool :=
  (timestamp d >? currentTime) && (timestamp d <=? nextTime).

(** The mutable variables of the [while] loop. *)
Record LoopState : Type := mkState {
  currentNetSD : Q;
  currentTime : Z;
  timeSinceStart : Z;
  steps : Z;
  dataPoints : list Point.t
}.

(** Step 2 of the loop body: metabolize with a floor at zero. *)
Definition metabolize (netSD burnAmount : Q) : Q :=
  if Qltb 0 netSD then
    let n := (netSD - burnAmount)%Q in
    if Qltb n 0 then 0%Q else n
  else netSD.

Section Simulation.

(** [t => new Date(t).toLocaleTimeString([], {hour, minute})]: depends on
    the locale and time zone of the host, taken as a parameter. *)
Variable toLocaleTimeString : Z -> string.

Variable sortedDrinks : list Drink.
Variables firstHourBurn subsequentHourBurn weight : Q.
Variable gender : Gender.
Variable lastDrinkTime : Z.

Definition burnAmountAt (timeSinceStart : Z) : Q :=
  if timeSinceStart <? hourMs then stepBurnFirstHour firstHourBurn
  else stepBurnSubsequent subsequentHourBurn.

(** What one pass through the loop body computes before the [break] test:
    the new accumulated units. *)
Definition stepNetSD (s : LoopState) : Q :=
  let nextTime := currentTime s + stepMs in
  let drinksInInterval :=
    filter (inInterval (currentTime s) nextTime) sortedDrinks in
  metabolize (addAll (currentNetSD s) drinksInInterval)
             (burnAmountAt (timeSinceStart s)).

Definition stepPoint (s : LoopState) : Point.t :=
  let nextTime := currentTime s + stepMs in
  Point.mk nextTime (toBAC weight gender (stepNetSD s))
           (toLocaleTimeString nextTime).

(** [currentTime > lastDrinkTime && currentBAC <= 0.001] *)
Definition breaks (s : LoopState) : bool :=
  (currentTime s >? lastDrinkTime)
  && Qleb (toBAC weight gender (stepNetSD s)) 0.001%Q.

(** State at the [break]: the sample is pushed, the clock is not advanced. *)
Definition atBreak (s : LoopState) : LoopState :=
  mkState (stepNetSD s) (currentTime s) (timeSinceStart s) (steps s)
          (dataPoints s ++ [stepPoint s]).

(** State at the end of a full pass through the body. *)
Definition advance (s : LoopState) : LoopState :=
  mkState (stepNetSD s) (currentTime s + stepMs)
          (timeSinceStart s + stepMs) (steps s + 1)
          (dataPoints s ++ [stepPoint s]).

(** [while (steps < maxSteps) { ... }]; [None] when the fuel runs out
    while the guard still holds. *)
Fixpoint loop (fuel : nat) (s : LoopState) : option LoopState :=
  if steps s <? maxSteps then
    match fuel with
    | O => None
    | S fuel' =>
        if breaks s then Some (atBreak s) else loop fuel' (advance s)
    end
  else Some s.

End Simulation.

(** State before the loop: the drinks within a second of [startTime] are
    summed and the initial point is pushed. *)
Definition initialState (toLocaleTimeString : Z -> string)
    (sortedDrinks : list Drink) (weight : Q) (gender : Gender)
    (startTime : Z) : LoopState :=
  let initialDrinks := filter (isInitial startTime) sortedDrinks in
  let netSD := addAll 0%Q initialDrinks in
  mkState netSD startTime 0 0
          [Point.mk startTime (toBAC weight gender netSD)
                    (toLocaleTimeString startTime)].

(** The [useMemo] body computing [points], with the fuel of the loop
    explicit.  [sortedDrinks[0]] and [sortedDrinks[sortedDrinks.length - 1]]
    are array reads; reading a field of a missing element throws, which is
    [None] here. *)
Definition pointsFuel (fuel : nat) (toLocaleTimeString : Z -> string)
    (drinks : list Drink) (firstHourBurn subsequentHourBurn weight : Q)
    (gender : Gender) : option (list Point.t) :=
  if (Z.of_nat (List.length drinks) =? 0) then Some []
  else
    let sortedDrinks := sortDrinks drinks in
    match nth_error sortedDrinks 0,
          nth_error sortedDrinks (List.length sortedDrinks - 1) with
    | Some first, Some lastDrink =>
        let startTime := timestamp first in
        let lastDrinkTime := timestamp lastDrink in
        option_map dataPoints
          (loop toLocaleTimeString sortedDrinks firstHourBurn
                subsequentHourBurn weight gender lastDrinkTime fuel
                (initialState toLocaleTimeString sortedDrinks weight gender
                              startTime))
    | _, _ => None
    end.

(** [points]: the loop runs with [maxSteps] units of fuel, which
    [pointsFuel_total] below shows to be enough for every input. *)
Definition points (toLocaleTimeString : Z -> string)
    (drinks : list Drink) (firstHourBurn subsequentHourBurn weight : Q)
    (gender : Gender) : list Point.t :=
  match pointsFuel (Z.to_nat maxSteps) toLocaleTimeString drinks
                   firstHourBurn subsequentHourBurn weight gender with
  | Some pts => pts
  | None => []
  end.

(** ** The summary pass ([soberTimeInfo]) *)

Module Info.
Inductive Status : Type := under | over.
(** [{ status, peak, time?, label?, projected? }]; an absent key is
    [None]. *)
Record t : Type := mk {
  status : Status;
  peak : Q;
  time : option Z;
  label : option string;
  projected : option bool
}.
(** Reading the optional key [projected] as a condition: absent is
    falsy. *)
Definition isProjected (i : t) : bool :=
  match projected i with Some b => b | None => false end.
End Info.

(** Value standing for an out-of-range array read; the loops below only
    read indices below [points.length]. *)
Definition noPoint : Point.t := Point.mk 0 0%Q EmptyString.

Definition at_ (pts : list Point.t) (i : nat) : Point.t := nth i pts noPoint.

(** [points[i].bac] *)
Definition bacAt (pts : list Point.t) (i : nat) : Q := Point.bac (at_ pts i).

(** [for (i = 1; i < points.length; i++)
       if (points[i].bac > points[peakIndex].bac) peakIndex = i] *)
Definition findPeakIndex (pts : list Point.t) : nat :=
  fold_left
    (fun peakIndex i =>
       if Qltb (Point.bac (at_ pts peakIndex)) (Point.bac (at_ pts i))
       then i else peakIndex)
    (seq 1 (List.length pts - 1)) 0%nat.

Definition soberTimeInfo (pts : list Point.t) : option Info.t :=
  if (List.length pts =? 0)%nat then None
  else
    let peakIndex := findPeakIndex pts in
    let peakBAC := Point.bac (at_ pts peakIndex) in
    if Qltb peakBAC 0.05%Q then
      Some (Info.mk Info.under peakBAC None None None)
    else
      match find (fun i => Qleb (Point.bac (at_ pts i)) 0.05%Q)
                 (seq peakIndex (List.length pts - peakIndex)) with
      | Some i =>
          Some (Info.mk Info.over peakBAC
                        (Some (Point.time (at_ pts i)))
                        (Some (Point.label (at_ pts i))) None)
      | None =>
          let lastP := at_ pts (List.length pts - 1) in
          Some (Info.mk Info.over peakBAC
                        (Some (Point.time lastP))
                        (Some (Point.label lastP)) (Some true))
      end.

(** ** Vocabulary of the statements *)

(** [sortedDrinks[0].timestamp] and the timestamp of the last sorted drink,
    as functions of the input list ([0] on the empty list, where the
    simulation does not read them). *)
Definition startTimeOf (drinks : list Drink) : Z :=
  match nth_error (sortDrinks drinks) 0 with
  | Some first => timestamp first
  | None => 0
  end.

Definition lastDrinkTimeOf (drinks : list Drink) : Z :=
  match nth_error (sortDrinks drinks)
                  (List.length (sortDrinks drinks) - 1) with
  | Some lastDrink => timestamp lastDrink
  | None => 0
  end.

(** The loop variables after [k] full passes through the body (no [break]
    taken), starting from the state built before the loop. *)
Definition stateAfter (toLocaleTimeString : Z -> string)
    (drinks : list Drink) (firstHourBurn subsequentHourBurn weight : Q)
    (gender : Gender) (k : nat) : LoopState :=
  Nat.iter k
    (advance toLocaleTimeString (sortDrinks drinks) firstHourBurn
             subsequentHourBurn weight gender)
    (initialState toLocaleTimeString (sortDrinks drinks) weight gender
                  (startTimeOf drinks)).

(** Units of the drinks of [l] with a timestamp in the interval
    [(lo, hi]]. *)
Definition unitsIn (lo hi : Z) (l : list Drink) : Q :=
  addAll 0%Q (filter (inInterval lo hi) l).

(** The samples pushed by the loop started in state [s] with [n] passes
    left before the ceiling. *)
Fixpoint emitted (toLocaleTimeString : Z -> string)
    (sortedDrinks : list Drink) (firstHourBurn subsequentHourBurn weight : Q)
    (gender : Gender) (lastDrinkTime : Z) (n : nat) (s : LoopState)
    : list Point.t :=
  match n with
  | O => []
  | S n' =>
      stepPoint toLocaleTimeString sortedDrinks firstHourBurn
                subsequentHourBurn weight gender s
      :: (if breaks sortedDrinks firstHourBurn subsequentHourBurn weight
                    gender lastDrinkTime s
          then []
          else emitted toLocaleTimeString sortedDrinks firstHourBurn
                       subsequentHourBurn weight gender lastDrinkTime n'
                       (advance toLocaleTimeString sortedDrinks firstHourBurn
                                subsequentHourBurn weight gender s))
  end.

(** The sample that shows the loop variables of [s]: its clock and the BAC
    of its accumulated units. *)
Definition pointOf (toLocaleTimeString : Z -> string) (weight : Q)
    (gender : Gender) (s : LoopState) : Point.t :=
  Point.mk (currentTime s) (toBAC weight gender (currentNetSD s))
           (toLocaleTimeString (currentTime s)).

(** The clock of [s] is [steps s] steps after [t0]. *)
Definition onSchedule (t0 : Z) (s : LoopState) : Prop :=
  currentTime s = t0 + steps s * stepMs /\ 0 <= steps s.

(** Passes left before the ceiling [steps < maxSteps] closes the loop. *)
Definition remaining (s : LoopState) : nat := Z.to_nat (maxSteps - steps s).

(** A drink as [addDrink] builds it from a positive volume and a percentage
    in [[0, 100]]. *)
Definition wellFormed (d : Drink) : Prop :=
  (0 < volumeMl d)%Q /\ (0 <= abv d)%Q /\ (abv d <= 100)%Q /\
  (standardDrinks d == calculateStandardDrinks (volumeMl d) (abv d))%Q.

(** [d] with its [standardDrinks] replaced. *)
Definition withStandardDrinks (d : Drink) (sd : Q) : Drink :=
  mkDrink (id d) (name d) (volumeMl d) (abv d) sd (timestamp d).

Definition dayMs : Z := 24 * 60 * 60 * 1000.

(** [x] with its units replaced by [f x] when its timestamp is more than a
    day after [t0], unchanged otherwise. *)
Definition reweighLate (t0 : Z) (f : Drink -> Q) (x : Drink) : Drink :=
  if timestamp x >? t0 + dayMs then withStandardDrinks x (f x) else x.

(** How many of the filters of a run of [maxSteps] passes let [d] through:
    the initial one and the interval of each pass. *)
Definition timesCounted (t0 : Z) (d : Drink) : nat :=
  ((if isInitial t0 d then 1 else 0)
   + List.length
       (filter (fun i => inInterval (t0 + Z.of_nat i * stepMs)
                                    (t0 + Z.of_nat i * stepMs + stepMs) d)
               (seq 0 (Z.to_nat maxSteps))))%nat.

(** ** The session ([App]: the drink list and what edits it) *)

Module App.

(** [drinks.reduce((sum, drink) => sum + drink.standardDrinks, 0)] *)
Definition totalStdDrinks (drinks : list Drink) : Q :=
  fold_left (fun sum drink => (sum + standardDrinks drink)%Q) drinks 0%Q.

(** [Math.min(...xs)] on the timestamps of a non-empty list. *)
Definition minTimestamp (first : Drink) (others : list Drink) : Z :=
  fold_left Z.min (map timestamp others) (timestamp first).

Record SessionInfo : Type := mkSessionInfo {
  hours : Z;
  mins : Z;
  startTime : Z
}.

(** [sessionInfo]: [null] on the empty list; otherwise the time elapsed
    since the earliest drink, floored at zero, in hours and minutes.
    [Math.floor] of a quotient of non-negative integers is [Z.div], [%] is
    the remainder with the sign of the dividend, [Z.rem]. *)
Definition sessionInfo (drinks : list Drink) (currentTime : Z)
    : option SessionInfo :=
  match drinks with
  | [] => None
  | first :: others =>
      let startTime := minTimestamp first others in
      let diffMs := currentTime - startTime in
      let validDiff := Z.max 0 diffMs in
      let hours := validDiff / (1000 * 60 * 60) in
      let mins := Z.rem validDiff (1000 * 60 * 60) / (1000 * 60) in
      Some (mkSessionInfo hours mins startTime)
  end.

(** The drink [addDrink] builds.  [newId] stands for
    [Date.now().toString() + Math.random().toString()] and [now] for the
    reading of [Date.now()] taken for the timestamp. *)
Definition newDrink (newId : string) (now : Z) (name : string)
    (volumeMl abv : Q) : Drink :=
  let std := ((volumeMl / 1000) * abv * 0.789)%Q in
  mkDrink newId name volumeMl abv std now.

(** [setDrinks(prev => [newDrink, ...prev])] *)
Definition addDrink (newId : string) (now : Z) (name : string)
    (volumeMl abv : Q) (prev : list Drink) : list Drink :=
  newDrink newId now name volumeMl abv :: prev.

(** [removeDrink]: [confirmed] is the answer to [window.confirm]. *)
Definition removeDrink (confirmed : bool) (theId : string)
    (prev : list Drink) : list Drink :=
  if confirmed then filter (fun d => negb (String.eqb (id d) theId)) prev
  else prev.

(** [updateDrinkTime]:
    [prev.map(d => d.id === id ? { ...d, timestamp: newTimestamp } : d)] *)
Definition updateDrinkTime (theId : string) (newTimestamp : Z)
    (prev : list Drink) : list Drink :=
  map (fun d =>
         if String.eqb (id d) theId
         then mkDrink (id d) (name d) (volumeMl d) (abv d) (standardDrinks d)
                      newTimestamp
         else d)
      prev.

(** [clearSession] *)
Definition clearSession (confirmed : bool) (prev : list Drink) : list Drink :=
  if confirmed then [] else prev.

(** One user action on the session list, with what the host supplies to
    it. *)
Inductive Action : Type :=
| Add (newId : string) (now : Z) (name : string) (volumeMl abv : Q)
| Remove (confirmed : bool) (theId : string)
| UpdateTime (theId : string) (newTimestamp : Z)
| Clear (confirmed : bool).

Definition perform (a : Action) (prev : list Drink) : list Drink :=
  match a with
  | Add newId now name volumeMl abv => addDrink newId now name volumeMl abv prev
  | Remove confirmed theId => removeDrink confirmed theId prev
  | UpdateTime theId newTimestamp => updateDrinkTime theId newTimestamp prev
  | Clear confirmed => clearSession confirmed prev
  end.

(** The list after a sequence of actions, starting from the empty session
    of [useState<Drink[]>([])]. *)
Definition session (actions : list Action) : list Drink :=
  fold_left (fun drinks a => perform a drinks) actions [].

(** An action whose inputs are in the range the data model gives a drink:
    a positive volume and a percentage in [[0, 100]]. *)
Definition inRange (a : Action) : Prop :=
  match a with
  | Add _ _ _ volumeMl abv => (0 < volumeMl)%Q /\ (0 <= abv)%Q /\ (abv <= 100)%Q
  | _ => True
  end.

End App.

(** ** The AI input ([SmartInput.handleSubmit]) *)

Module SmartInput.

(** One element of the list [parseDrinkInput] resolves to. *)
Record Parsed : Type := mkParsed {
  name : string;
  volumeMl : Q;
  abv : Q
}.

(** What the request came to: the promise was rejected, or it resolved to a
    list; each element comes with the id and clock reading its [onAddDrink]
    call will draw. *)
Inductive Response : Type :=
| Rejected
| Resolved (drinks : list (string * Z * Parsed)).

(** The state [handleSubmit] writes: the session list (through
    [onAddDrink]), the error message and the text of the input box.  The
    flag [isLoading], set during the request and cleared after it, is left
    out. *)
Record State : Type := mkState {
  drinks : list Drink;
  error : option string;
  input : string
}.

Definition addParsed (prev : list Drink) (d : string * Z * Parsed)
    : list Drink :=
  let '(newId, now, p) := d in
  App.addDrink newId now (name p) (volumeMl p) (abv p) prev.

(** [handleSubmit], after the guard [if (!input.trim()) return] let the
    request through. *)
Definition handleSubmit (response : Response) (s : State) : State :=
  match response with
  | Rejected =>
      mkState (drinks s)
              (Some "Failed to process request. Please check your connection."%string)
              (input s)
  | Resolved parsed =>
      if (List.length parsed =? 0)%nat then
        mkState (drinks s)
                (Some "Could not identify any drinks. Try being more specific."%string)
                (input s)
      else
        mkState (fold_left addParsed parsed (drinks s)) None EmptyString
  end.

End SmartInput.

(** ** Drawing the curve ([DrinkGraph], after [points]) *)

Module Chart.

Definition width : Q := 100.
Definition height : Q := 50.
Definition padding : Q := 6.

(** [Math.max(0.08, ...points.map(p => p.bac))] *)
Definition maxBAC (pts : list Point.t) : Q :=
  fold_left Qmax (map Point.bac pts) 0.08%Q.

Definition minTime (pts : list Point.t) : Z := Point.time (at_ pts 0).

Definition maxTime (pts : list Point.t) : Z :=
  Point.time (at_ pts (List.length pts - 1)).

(** [maxTime - minTime || 1] *)
Definition timeRange (pts : list Point.t) : Z :=
  if maxTime pts - minTime pts =? 0 then 1 else maxTime pts - minTime pts.

Definition getX (pts : list Point.t) (t : Z) : Q :=
  (inject_Z (t - minTime pts) / inject_Z (timeRange pts)
   * (width - 2 * padding) + padding)%Q.

Definition getY (pts : list Point.t) (bac : Q) : Q :=
  (height - padding - bac / maxBAC pts * (height - 2 * padding))%Q.

Definition y05 (pts : list Point.t) : Q := getY pts 0.05%Q.

(** [points.reduce((prev, curr) =>
       Math.abs(curr.time - now) < Math.abs(prev.time - now) ? curr : prev)];
    [reduce] without an initial value starts from the first element and
    throws on the empty array, which is [None]. *)
Definition closest (pts : list Point.t) (now : Z) : option Point.t :=
  match pts with
  | [] => None
  | first :: others =>
      Some (fold_left
              (fun prev curr =>
                 if Z.abs (Point.time curr - now) <? Z.abs (Point.time prev - now)
                 then curr else prev)
              others first)
  end.

(** Where the NOW marker is drawn: [translate(getX(now), getY(closest.bac))]
    when [now >= minTime && now <= maxTime], nothing otherwise. *)
Definition nowMarker (pts : list Point.t) (now : Z) : option (Q * Q) :=
  if (now >=? minTime pts) && (now <=? maxTime pts) then
    option_map (fun c => (getX pts now, getY pts (Point.bac c)))
               (closest pts now)
  else None.

(** [if (points.length < 2) return null]: whether the chart is drawn. *)
Definition drawn (pts : list Point.t) : bool :=
  negb (List.length pts <? 2)%nat.

(** The line under the title: [Below 0.05 at {label}] when
    [soberTimeInfo?.status === 'over'], [Likely under 0.05 limit]
    otherwise. *)
Inductive Headline : Type :=
| BelowAt (label : option string)
| LikelyUnder.

Definition headline (info : option Info.t) : Headline :=
  match info with
  | Some i =>
      match Info.status i with
      | Info.over => BelowAt (Info.label i)
      | Info.under => LikelyUnder
      end
  | None => LikelyUnder
  end.

(** Where the sober-time marker is drawn:
    [soberTimeInfo?.status === 'over' && soberTimeInfo.time &&
     translate(getX(soberTimeInfo.time), y05)]; a time that is missing or
    zero is falsy. *)
Definition soberMarker (pts : list Point.t) (info : option Info.t)
    : option (Q * Q) :=
  match info with
  | Some i =>
      match Info.status i, Info.time i with
      | Info.over, Some t =>
          if t =? 0 then None else Some (getX pts t, y05 pts)
      | _, _ => None
      end
  | None => None
  end.

End Chart.

(** ** Naming a drink ([ManualCalculator.generatedName]) *)

Module ManualCalculator.

(** [COMMON_SIZES] and [COMMON_ABV] of [types]. *)
Definition COMMON_SIZES : list (string * Q) :=
  [ ("Nip/Shot", 30); ("Small Wine", 100); ("Std Wine", 150);
    ("Pot/Middy", 285); ("Stubby/Can", 375); ("Schooner", 425);
    ("Pint", 570); ("Longneck", 750); ("Bottle (Wine)", 750);
    ("Jug", 1140) ]%string%Q.

Definition COMMON_ABV : list (string * Q) :=
  [ ("Light Beer", 2.7); ("Mid Strength", 3.5); ("Full Strength", 4.8);
    ("Cider", 5.0); ("IPA/Craft", 6.5); ("White Wine", 11.5);
    ("Champagne", 12.0); ("Red Wine", 13.5); ("Fortified", 18.0);
    ("Spirits", 40.0) ]%string%Q.

(** [table.find(e => e.value === x)?.label]: the label of the first entry
    with that number. *)
Definition labelOf (table : list (string * Q)) (x : Q) : option string :=
  option_map fst (find (fun e => Qeq_bool (snd e) x) table).

(** The classes [\s] and [.] of the regular expression, on the ASCII
    range. *)
Definition isSpace (c : Ascii.ascii) : bool :=
  let n := Ascii.nat_of_ascii c in
  ((9 <=? n) && (n <=? 13) || (n =? 32))%nat.

Definition isLineTerminator (c : Ascii.ascii) : bool :=
  let n := Ascii.nat_of_ascii c in
  ((n =? 10) || (n =? 13))%nat.

(** [\s*], greedy: what is left after the leading white space. *)
Fixpoint dropSpaces (s : string) : string :=
  match s with
  | EmptyString => EmptyString
  | String c rest => if isSpace c then dropSpaces rest else s
  end.

(** [.*?\)] after an opening parenthesis: what is left after the first
    closing one, if it comes before any line terminator. *)
Fixpoint closeParen (s : string) : option string :=
  match s with
  | EmptyString => None
  | String c rest =>
      if Ascii.eqb c ")"%char then Some rest
      else if isLineTerminator c then None
      else closeParen rest
  end.

(** A match of [\s*\(.*?\)\s*] starting at the head of [s]: what is left
    after it. *)
Definition matchAt (s : string) : option string :=
  match dropSpaces s with
  | String c rest =>
      if Ascii.eqb c "("%char then option_map dropSpaces (closeParen rest)
      else None
  | EmptyString => None
  end.

(** [s.replace(/\s*\(.*?\)\s*/g, '')]: every match, leftmost first, is
    dropped.  A match is not empty, so [fuel] above the length of [s] is
    never used up. *)
Fixpoint stripParensFuel (fuel : nat) (s : string) : string :=
  match fuel with
  | O => s
  | S fuel' =>
      match matchAt s with
      | Some rest => stripParensFuel fuel' rest
      | None =>
          match s with
          | EmptyString => EmptyString
          | String c rest => String c (stripParensFuel fuel' rest)
          end
      end
  end.

Definition stripParens (s : string) : string :=
  stripParensFuel (S (String.length s)) s.

(** [generatedName]; [show] is the conversion of a number to a string that
    a template literal performs. *)
Definition generatedName (show : Q -> string) (volume abv : Q) : string :=
  let sizeLabel := labelOf COMMON_SIZES volume in
  let abvLabel := labelOf COMMON_ABV abv in
  match sizeLabel, abvLabel with
  | Some sizeLabel, Some abvLabel =>
      let cleanSize := stripParens sizeLabel in
      (cleanSize ++ " of " ++ abvLabel)%string
  | Some sizeLabel, None =>
      (sizeLabel ++ " (" ++ show abv ++ "%)")%string
  | None, Some abvLabel =>
      (show volume ++ "ml " ++ abvLabel)%string
  | None, None =>
      ("Custom Drink (" ++ show volume ++ "ml @ " ++ show abv ++ "%)")%string
  end.

End ManualCalculator.

(** ** The simulation on the numbers of the code (binary64)

    The same [points], with JavaScript numbers as IEEE 754 binary64 floats
    where the code computes on quantities (units, burn rates, weight, BAC);
    timestamps and the clock stay integers, on which binary64 is exact.
    [>], [<] and [<=] are the IEEE comparisons. *)

Module F64.

Record Drink : Type := mkDrink {
  id : string;
  name : string;
  volumeMl : float;
  abv : float;
  standardDrinks : float;
  timestamp : Z
}.

Record Point : Type := mkPoint { time : Z; bac : float; label : string }.

Definition calculateStandardDrinks (volumeMl abv : float) : float :=
  ((volumeMl / 1000) * abv * 0.789)%float.

(** [addDrink(name, volumeMl, abv)] with the clock reading [now]. *)
Definition addDrink (newId : string) (now : Z) (name : string)
    (volumeMl abv : float) : Drink :=
  mkDrink newId name volumeMl abv (calculateStandardDrinks volumeMl abv) now.

Fixpoint insert (d : Drink) (l : list Drink) : list Drink :=
  match l with
  | [] => [d]
  | x :: xs =>
      if timestamp d <=? timestamp x then d :: x :: xs
      else x :: insert d xs
  end.

Fixpoint sortDrinks (l : list Drink) : list Drink :=
  match l with
  | [] => []
  | d :: ds => insert d (sortDrinks ds)
  end.

Definition r (gender : Gender) : float :=
  match gender with male => 0.68%float | female => 0.55%float end.

Definition toBAC (weight : float) (gender : Gender) (netSD : float) : float :=
  let w := if PrimFloat.ltb 0 weight then weight else 1%float in
  (netSD / (w * r gender))%float.

Definition stepBurnFirstHour (firstHourBurn : float) : float :=
  ((firstHourBurn / 60) * 5)%float.
Definition stepBurnSubsequent (subsequentHourBurn : float) : float :=
  ((subsequentHourBurn / 60) * 5)%float.

Definition addAll (acc : float) (l : list Drink) : float :=
  fold_left (fun a d => (a + standardDrinks d)%float) l acc.

Definition isInitial (startTime : Z) (d : Drink) : bool :=
  Z.abs (timestamp d - startTime) <? 1000.

Definition inInterval (currentTime nextTime : Z) (d : Drink) : bool :=
  (timestamp d >? currentTime) && (timestamp d <=? nextTime).

Record LoopState : Type := mkState {
  currentNetSD : float;
  currentTime : Z;
  timeSinceStart : Z;
  steps : Z;
  dataPoints : list Point
}.

Definition metabolize (netSD burnAmount : float) : float :=
  if PrimFloat.ltb 0 netSD then
    let n := (netSD - burnAmount)%float in
    if PrimFloat.ltb n 0 then 0%float else n
  else netSD.

Section Simulation.

Variable toLocaleTimeString : Z -> string.
Variable sortedDrinks : list Drink.
Variables firstHourBurn subsequentHourBurn weight : float.
Variable gender : Gender.
Variable lastDrinkTime : Z.

Definition burnAmountAt (timeSinceStart : Z) : float :=
  if timeSinceStart <? hourMs then stepBurnFirstHour firstHourBurn
  else stepBurnSubsequent subsequentHourBurn.

Definition stepNetSD (s : LoopState) : float :=
  let nextTime := currentTime s + stepMs in
  let drinksInInterval :=
    filter (inInterval (currentTime s) nextTime) sortedDrinks in
  metabolize (addAll (currentNetSD s) drinksInInterval)
             (burnAmountAt (timeSinceStart s)).

Definition stepPoint (s : LoopState) : Point :=
  let nextTime := currentTime s + stepMs in
  mkPoint nextTime (toBAC weight gender (stepNetSD s))
          (toLocaleTimeString nextTime).

Definition breaks (s : LoopState) : bool :=
  (currentTime s >? lastDrinkTime)
  && PrimFloat.leb (toBAC weight gender (stepNetSD s)) 0.001%float.

Definition atBreak (s : LoopState) : LoopState :=
  mkState (stepNetSD s) (currentTime s) (timeSinceStart s) (steps s)
          (dataPoints s ++ [stepPoint s]).

Definition advance (s : LoopState) : LoopState :=
  mkState (stepNetSD s) (currentTime s + stepMs)
          (timeSinceStart s + stepMs) (steps s + 1)
          (dataPoints s ++ [stepPoint s]).

Fixpoint loop (fuel : nat) (s : LoopState) : option LoopState :=
  if steps s <? maxSteps then
    match fuel with
    | O => None
    | S fuel' =>
        if breaks s then Some (atBreak s) else loop fuel' (advance s)
    end
  else Some s.

End Simulation.

Definition initialState (toLocaleTimeString : Z -> string)
    (sortedDrinks : list Drink) (weight : float) (gender : Gender)
    (startTime : Z) : LoopState :=
  let initialDrinks := filter (isInitial startTime) sortedDrinks in
  let netSD := addAll 0%float initialDrinks in
  mkState netSD startTime 0 0
          [mkPoint startTime (toBAC weight gender netSD)
                   (toLocaleTimeString startTime)].

Definition pointsFuel (fuel : nat) (toLocaleTimeString : Z -> string)
    (drinks : list Drink) (firstHourBurn subsequentHourBurn weight : float)
    (gender : Gender) : option (list Point) :=
  if (Z.of_nat (List.length drinks) =? 0) then Some []
  else
    let sortedDrinks := sortDrinks drinks in
    match nth_error sortedDrinks 0,
          nth_error sortedDrinks (List.length sortedDrinks - 1) with
    | Some first, Some lastDrink =>
        let startTime := timestamp first in
        let lastDrinkTime := timestamp lastDrink in
        option_map dataPoints
          (loop toLocaleTimeString sortedDrinks firstHourBurn
                subsequentHourBurn weight gender lastDrinkTime fuel
                (initialState toLocaleTimeString sortedDrinks weight gender
                              startTime))
    | _, _ => None
    end.

(** The loop has the same guard and counter as in the exact model:
    [maxSteps] units of fuel are never used up. *)
Definition points (toLocaleTimeString : Z -> string)
    (drinks : list Drink) (firstHourBurn subsequentHourBurn weight : float)
    (gender : Gender) : list Point :=
  match pointsFuel (Z.to_nat maxSteps) toLocaleTimeString drinks
                   firstHourBurn subsequentHourBurn weight gender with
  | Some pts => pts
  | None => []
  end.

(** The drinks of [l] with timestamp [t], in their order in [l]. *)
Definition at_time (t : Z) (l : list Drink) : list Drink :=
  filter (fun d => timestamp d =? t) l.

Definition byTimestamp (a b : Drink) : Prop := timestamp a <= timestamp b.

(** Three drinks logged at the same instant, 20:00 UTC. *)
Definition nipLight : Drink := addDrink "a" (20 * hourMs) "Nip" 30 2.7.
Definition nipMid : Drink := addDrink "b" (20 * hourMs) "Nip" 30 3.5.
Definition potSpirits : Drink := addDrink "c" (20 * hourMs) "Pot" 285 40.
Definition pint : Drink := addDrink "d" (20 * hourMs) "Pint" 570 5.
Definition pintLater : Drink :=
  addDrink "e" (20 * hourMs + 600000) "Pint" 570 5.

End F64.

(** ** Concrete inputs used by the examples *)

(** One possible host formatter: 24-hour [HH:MM] in UTC. *)
Definition twoDigits (n : Z) : string :=
  String (Ascii.ascii_of_nat (48 + Z.to_nat (n / 10)))
    (String (Ascii.ascii_of_nat (48 + Z.to_nat (n mod 10))) EmptyString).

Definition utcLabel (t : Z) : string :=
  (twoDigits ((t / hourMs) mod 24) ++ ":" ++ twoDigits ((t / 60000) mod 60))%string.

(** [addDrink(name, volumeMl, abv)] with the clock reading [now]. *)
Definition addDrink (name : string) (volumeMl abv : Q) (now : Z) : Drink :=
  mkDrink name name volumeMl abv (calculateStandardDrinks volumeMl abv) now.

(** A pint of 5% beer logged at 20:00:00.000 UTC on the first day of the
    epoch, a second one half a second later, a nip of light beer at 20:00,
    and a pint logged more than a day after the first. *)
Definition eightPm : Z := 20 * hourMs.
Definition pint : Drink := addDrink "Pint" 570 5 eightPm.
Definition pintHalfSecondLater : Drink := addDrink "Pint" 570 5 (eightPm + 500).
Definition nipLight : Drink := addDrink "Nip" 30 2.7 eightPm.
Definition pintNextDay : Drink :=
  addDrink "Pint" 570 5 (eightPm + dayMs + 1).

(** A sample sequence that rises to 0.09 twice and comes back to the
    threshold at its fourth sample. *)
Definition risingThenFalling : list Point.t :=
  [ Point.mk 0 0.04%Q "20:00"; Point.mk 300000 0.09%Q "20:05";
    Point.mk 600000 0.09%Q "20:10"; Point.mk 900000 0.05%Q "20:15";
    Point.mk 1200000 0.01%Q "20:20" ].

(** * Properties *)

(** ** Comparisons and sums of rationals *)

Lemma Qltb_true (x y : Q) : Qltb x y = true <-> (x < y)%Q.
Proof.
  unfold Qltb. rewrite negb_true_iff, <- not_true_iff_false, Qle_bool_iff.
  split; [apply Qnot_le_lt | apply Qlt_not_le].
Qed.

Lemma Qltb_false (x y : Q) : Qltb x y = false <-> (y <= x)%Q.
Proof.
  unfold Qltb. rewrite negb_false_iff. apply Qle_bool_iff.
Qed.

Lemma Qleb_true (x y : Q) : Qleb x y = true <-> (x <= y)%Q.
Proof. apply Qle_bool_iff. Qed.

Lemma Qleb_false (x y : Q) : Qleb x y = false <-> (y < x)%Q.
Proof.
  unfold Qleb. rewrite <- not_true_iff_false, Qle_bool_iff.
  split; [apply Qnot_le_lt | apply Qlt_not_le].
Qed.

(** Adding two terms to an accumulator commutes on the nose, not only up
    to [==]: the sums of a list and of a permutation of it are the same
    fraction. *)
Lemma Qplus_swap (a x y : Q) : (a + x + y = a + y + x)%Q.
Proof.
  destruct a as [an ad], x as [xn xd], y as [yn yd].
  unfold Qplus; cbn [Qnum Qden]. f_equal.
  - rewrite !Pos2Z.inj_mul. ring.
  - lia.
Qed.

Lemma addAll_perm (l l' : list Drink) :
  Permutation l l' -> forall acc, addAll acc l = addAll acc l'.
Proof.
  unfold addAll.
  induction 1 as [|d l l' _ IH|d e l|l l' l'' _ IH1 _ IH2]; intros acc;
    cbn [fold_left].
  - reflexivity.
  - apply IH.
  - now rewrite Qplus_swap.
  - now rewrite IH1.
Qed.

Lemma addAll_plus (l : list Drink) :
  forall acc, (addAll acc l == acc + addAll 0 l)%Q.
Proof.
  unfold addAll.
  induction l as [|d l IH]; intros acc; cbn [fold_left].
  - ring.
  - rewrite (IH (acc + standardDrinks d)%Q), (IH (0 + standardDrinks d)%Q).
    ring.
Qed.

Lemma addAll_nonneg (l : list Drink) :
  Forall (fun d => (0 <= standardDrinks d)%Q) l ->
  forall acc, (0 <= acc)%Q -> (0 <= addAll acc l)%Q.
Proof.
  unfold addAll.
  induction 1 as [|d l Hd _ IH]; intros acc Hacc; cbn [fold_left].
  - exact Hacc.
  - apply IH. lra.
Qed.

Lemma addAll_ext (f : Drink -> Drink) (l : list Drink) :
  Forall (fun d => standardDrinks (f d) = standardDrinks d) l ->
  forall acc, addAll acc (map f l) = addAll acc l.
Proof.
  unfold addAll.
  induction 1 as [|d l Hd _ IH]; intros acc; cbn [map fold_left].
  - reflexivity.
  - now rewrite Hd, IH.
Qed.

(** ** The sort *)

Lemma insert_perm (d : Drink) (l : list Drink) :
  Permutation (insert d l) (d :: l).
Proof.
  induction l as [|x xs IH]; cbn [insert].
  - reflexivity.
  - destruct (timestamp d <=? timestamp x).
    + reflexivity.
    + rewrite IH. apply perm_swap.
Qed.

Lemma sortDrinks_perm (l : list Drink) : Permutation (sortDrinks l) l.
Proof.
  induction l as [|d ds IH]; cbn [sortDrinks].
  - reflexivity.
  - rewrite insert_perm. now constructor.
Qed.

Lemma insert_sorted (d : Drink) (l : list Drink) :
  StronglySorted byTimestamp l -> StronglySorted byTimestamp (insert d l).
Proof.
  induction 1 as [|x xs Hxs IH Hx]; cbn [insert].
  - repeat constructor.
  - destruct (timestamp d <=? timestamp x) eqn:E.
    + apply Z.leb_le in E. constructor.
      * now constructor.
      * constructor; [exact E|].
        eapply Forall_impl; [|exact Hx].
        unfold byTimestamp; intros; lia.
    + apply Z.leb_gt in E. constructor; [exact IH|].
      rewrite (Forall_forall (byTimestamp x)). intros y Hy.
      apply (Permutation_in _ (insert_perm d xs)) in Hy.
      destruct Hy as [<-|Hy].
      * unfold byTimestamp; lia.
      * rewrite Forall_forall in Hx. now apply Hx.
Qed.

Lemma sortDrinks_sorted (l : list Drink) :
  StronglySorted byTimestamp (sortDrinks l).
Proof.
  induction l as [|d ds IH]; cbn [sortDrinks].
  - constructor.
  - now apply insert_sorted.
Qed.

(** The sort is stable: drinks with one timestamp keep their input order. *)
Lemma insert_stable (t : Z) (d : Drink) (l : list Drink) :
  filter (fun x => timestamp x =? t) (insert d l)
  = filter (fun x => timestamp x =? t) (d :: l).
Proof.
  induction l as [|x xs IH]; cbn [insert].
  - reflexivity.
  - destruct (timestamp d <=? timestamp x) eqn:E; [reflexivity|].
    apply Z.leb_gt in E.
    cbn [filter] in *. rewrite IH.
    destruct (timestamp d =? t) eqn:Ed; [|reflexivity].
    apply Z.eqb_eq in Ed.
    destruct (timestamp x =? t) eqn:Ex; [|reflexivity].
    apply Z.eqb_eq in Ex. lia.
Qed.

Lemma sortDrinks_stable (t : Z) (l : list Drink) :
  filter (fun x => timestamp x =? t) (sortDrinks l)
  = filter (fun x => timestamp x =? t) l.
Proof.
  induction l as [|d ds IH]; cbn [sortDrinks].
  - reflexivity.
  - rewrite insert_stable. cbn [filter]. now rewrite IH.
Qed.

Lemma sortDrinks_length (l : list Drink) :
  List.length (sortDrinks l) = List.length l.
Proof. apply Permutation_length, sortDrinks_perm. Qed.

Lemma last_index_max (l : list Drink) (x : Drink) :
  StronglySorted byTimestamp l ->
  nth_error l (List.length l - 1) = Some x ->
  forall y, In y l -> timestamp y <= timestamp x.
Proof.
  induction 1 as [|a l' Hl' IH Ha]; intros Hx y Hy.
  - destruct Hy.
  - destruct l' as [|b l''].
    + cbn in Hx. injection Hx as <-. destruct Hy as [<-|[]]. lia.
    + replace (List.length (a :: b :: l'') - 1)%nat
        with (S (List.length (b :: l'') - 1)) in Hx by (cbn; lia).
      cbn [nth_error] in Hx.
      destruct Hy as [<-|Hy].
      * rewrite Forall_forall in Ha.
        apply (Ha x). eapply nth_error_In, Hx.
      * now apply IH.
Qed.

Lemma sorted_nonempty (drinks : list Drink) :
  drinks <> [] ->
  exists first lastDrink,
    nth_error (sortDrinks drinks) 0 = Some first /\
    nth_error (sortDrinks drinks) (List.length (sortDrinks drinks) - 1)
    = Some lastDrink.
Proof.
  intros Hne.
  assert (Hlen : (0 < List.length (sortDrinks drinks))%nat).
  { rewrite sortDrinks_length. destruct drinks; [easy | cbn; lia]. }
  destruct (nth_error (sortDrinks drinks) 0) as [f|] eqn:Ef.
  2:{ apply nth_error_None in Ef. lia. }
  destruct (nth_error (sortDrinks drinks)
                      (List.length (sortDrinks drinks) - 1)) as [x|] eqn:Ex.
  2:{ apply nth_error_None in Ex. lia. }
  now exists f, x.
Qed.

(** [startTime] is the earliest timestamp of the input. *)
Lemma startTimeOf_min (drinks : list Drink) :
  drinks <> [] ->
  (exists d, In d drinks /\ timestamp d = startTimeOf drinks) /\
  (forall d, In d drinks -> startTimeOf drinks <= timestamp d).
Proof.
  intros Hne. destruct (sorted_nonempty drinks Hne) as (f & x & Hf & _).
  unfold startTimeOf. rewrite Hf.
  pose proof (sortDrinks_sorted drinks) as Hs.
  pose proof (sortDrinks_perm drinks) as Hp.
  destruct (sortDrinks drinks) as [|f' rest]; [discriminate|].
  injection Hf as ->. split.
  - exists f. split; [|reflexivity].
    apply (Permutation_in _ Hp). now left.
  - intros d Hd. apply (Permutation_in _ (Permutation_sym Hp)) in Hd.
    destruct Hd as [<-|Hd]; [lia|].
    apply StronglySorted_inv in Hs. destruct Hs as [_ Hs].
    rewrite Forall_forall in Hs. now apply Hs.
Qed.

(** [lastDrinkTime] is the latest timestamp of the input. *)
Lemma lastDrinkTimeOf_max (drinks : list Drink) :
  drinks <> [] ->
  (exists d, In d drinks /\ timestamp d = lastDrinkTimeOf drinks) /\
  (forall d, In d drinks -> timestamp d <= lastDrinkTimeOf drinks).
Proof.
  intros Hne. destruct (sorted_nonempty drinks Hne) as (f & x & _ & Hx).
  unfold lastDrinkTimeOf. rewrite Hx.
  pose proof (sortDrinks_perm drinks) as Hp. split.
  - exists x. split; [|reflexivity].
    apply (Permutation_in _ Hp). eapply nth_error_In, Hx.
  - intros d Hd. apply (Permutation_in _ (Permutation_sym Hp)) in Hd.
    eapply last_index_max; eauto using sortDrinks_sorted.
Qed.

Lemma startTimeOf_perm (l l' : list Drink) :
  Permutation l l' -> startTimeOf l = startTimeOf l'.
Proof.
  intros Hp. destruct l as [|a l0].
  - apply Permutation_nil in Hp. now subst.
  - assert (Hl' : l' <> []).
    { intros ->. apply Permutation_sym, Permutation_nil in Hp. easy. }
    destruct (startTimeOf_min (a :: l0)) as [(d & Hd & Ed) Hmin]; [easy|].
    destruct (startTimeOf_min l' Hl') as [(d' & Hd' & Ed') Hmin'].
    pose proof (Hmin d' (Permutation_in _ (Permutation_sym Hp) Hd')).
    pose proof (Hmin' d (Permutation_in _ Hp Hd)). lia.
Qed.

Lemma lastDrinkTimeOf_perm (l l' : list Drink) :
  Permutation l l' -> lastDrinkTimeOf l = lastDrinkTimeOf l'.
Proof.
  intros Hp. destruct l as [|a l0].
  - apply Permutation_nil in Hp. now subst.
  - assert (Hl' : l' <> []).
    { intros ->. apply Permutation_sym, Permutation_nil in Hp. easy. }
    destruct (lastDrinkTimeOf_max (a :: l0)) as [(d & Hd & Ed) Hmax]; [easy|].
    destruct (lastDrinkTimeOf_max l' Hl') as [(d' & Hd' & Ed') Hmax'].
    pose proof (Hmax d' (Permutation_in _ (Permutation_sym Hp) Hd')).
    pose proof (Hmax' d (Permutation_in _ Hp Hd)). lia.
Qed.

(** ** The loop *)

Section LoopFacts.

Variable fmt : Z -> string.
Variable L : list Drink.
Variables FH SH w : Q.
Variable g : Gender.
Variable tl : Z.

Local Abbreviation loop' := (loop fmt L FH SH w g tl).
Local Abbreviation emitted' := (emitted fmt L FH SH w g tl).
Local Abbreviation advance' := (advance fmt L FH SH w g).
Local Abbreviation breaks' := (breaks L FH SH w g tl).
Local Abbreviation stepPoint' := (stepPoint fmt L FH SH w g).

Lemma remaining_advance (s : LoopState) :
  steps s < maxSteps -> remaining s = S (remaining (advance' s)).
Proof. unfold remaining; cbn [advance steps]. lia. Qed.

(** With fuel for the passes left before the ceiling, the loop returns,
    and what it pushed is [emitted]. *)
Lemma loop_emitted (fuel : nat) :
  forall s, (remaining s <= fuel)%nat ->
    exists s', loop' fuel s = Some s' /\
               dataPoints s' = dataPoints s ++ emitted' (remaining s) s.
Proof.
  induction fuel as [|fuel IH]; intros s Hfuel.
  - cbn [loop]. destruct (steps s <? maxSteps) eqn:E.
    + apply Z.ltb_lt in E. unfold remaining in Hfuel. lia.
    + apply Z.ltb_ge in E. exists s. split; [reflexivity|].
      replace (remaining s) with 0%nat by (unfold remaining; lia).
      cbn. now rewrite app_nil_r.
  - cbn [loop]. destruct (steps s <? maxSteps) eqn:E.
    + apply Z.ltb_lt in E.
      rewrite (remaining_advance s E) in *. cbn [emitted].
      destruct (breaks' s).
      * exists (atBreak fmt L FH SH w g s). split; reflexivity.
      * destruct (IH (advance' s)) as (s' & Hs' & Hd); [lia|].
        exists s'. split; [exact Hs'|].
        rewrite Hd. cbn [advance dataPoints]. now rewrite <- app_assoc.
    + apply Z.ltb_ge in E. exists s. split; [reflexivity|].
      replace (remaining s) with 0%nat by (unfold remaining; lia).
      cbn. now rewrite app_nil_r.
Qed.

Lemma emitted_length (n : nat) : forall s, (List.length (emitted' n s) <= n)%nat.
Proof.
  induction n as [|n IH]; intros s; cbn [emitted List.length]; [lia|].
  destruct (breaks' s); cbn [List.length]; [lia|].
  specialize (IH (advance' s)). lia.
Qed.

Lemma emitted_nonempty (n : nat) (s : LoopState) :
  (1 <= List.length (emitted' (S n) s))%nat.
Proof. cbn [emitted List.length]. lia. Qed.

(** The [i]-th pushed sample is the one computed from the state after [i]
    full passes. *)
Lemma emitted_nth (n : nat) :
  forall s i, (i < List.length (emitted' n s))%nat ->
    nth i (emitted' n s) noPoint = stepPoint' (Nat.iter i advance' s).
Proof.
  induction n as [|n IH]; intros s i Hi; cbn [emitted List.length] in *;
    [lia|].
  destruct i as [|i]; [reflexivity|].
  cbn [nth]. destruct (breaks' s); cbn [List.length] in Hi; [lia|].
  rewrite IH by lia. now rewrite Nat.iter_succ_r.
Qed.

(** No pass before the last one took the [break]. *)
Lemma emitted_no_break (n : nat) :
  forall s i, (S i < List.length (emitted' n s))%nat ->
    breaks' (Nat.iter i advance' s) = false.
Proof.
  induction n as [|n IH]; intros s i Hi; cbn [emitted List.length] in *;
    [lia|].
  destruct (breaks' s) eqn:E; cbn [List.length] in Hi; [lia|].
  destruct i as [|i]; [exact E|].
  rewrite Nat.iter_succ_r. apply IH. lia.
Qed.

(** The last pass took the [break], or the ceiling was reached. *)
Lemma emitted_last (n : nat) :
  forall s, let m := List.length (emitted' n s) in
    m = n \/ ((0 < m)%nat /\ breaks' (Nat.iter (m - 1) advance' s) = true).
Proof.
  induction n as [|n IH]; intros s; cbn [emitted List.length].
  - now left.
  - destruct (breaks' s) eqn:E; cbn [List.length].
    + right. split; [lia|exact E].
    + destruct (IH (advance' s)) as [Hm|[Hpos Hb]].
      * left. now rewrite Hm.
      * right. split; [lia|].
        replace (S (List.length (emitted' n (advance' s))) - 1)%nat
          with (S (List.length (emitted' n (advance' s)) - 1)) by lia.
        now rewrite Nat.iter_succ_r.
Qed.

(** Clock, elapsed time and step counter after [i] passes. *)
Lemma iter_clock (s : LoopState) (i : nat) :
  currentTime (Nat.iter i advance' s) = currentTime s + Z.of_nat i * stepMs /\
  timeSinceStart (Nat.iter i advance' s)
  = timeSinceStart s + Z.of_nat i * stepMs /\
  steps (Nat.iter i advance' s) = steps s + Z.of_nat i.
Proof.
  induction i as [|i (IH1 & IH2 & IH3)].
  - cbn. lia.
  - rewrite Nat.iter_succ. cbn [advance currentTime timeSinceStart steps].
    rewrite IH1, IH2, IH3. lia.
Qed.

End LoopFacts.

(** ** The run as a whole *)

Lemma Some_eq {A : Type} (a b : A) : Some a = Some b -> a = b.
Proof. intros H. now injection H. Qed.

Section RunFacts.

Variable fmt : Z -> string.
Variable drinks : list Drink.
Variables FH SH w : Q.
Variable g : Gender.

Local Abbreviation pts := (points fmt drinks FH SH w g).
Local Abbreviation state := (stateAfter fmt drinks FH SH w g).
Local Abbreviation s0 :=
  (initialState fmt (sortDrinks drinks) w g (startTimeOf drinks)).
Local Abbreviation run :=
  (emitted fmt (sortDrinks drinks) FH SH w g (lastDrinkTimeOf drinks)
           (Z.to_nat maxSteps) s0).

Lemma pointsFuel_nonempty (fuel : nat) :
  drinks <> [] ->
  pointsFuel fuel fmt drinks FH SH w g
  = option_map dataPoints
      (loop fmt (sortDrinks drinks) FH SH w g (lastDrinkTimeOf drinks)
            fuel s0).
Proof.
  intros Hne. unfold pointsFuel, startTimeOf, lastDrinkTimeOf.
  destruct (sorted_nonempty drinks Hne) as (f & x & Hf & Hx).
  rewrite Hf, Hx.
  destruct drinks; [easy|reflexivity].
Qed.

Lemma pointsFuel_emitted (fuel : nat) :
  drinks <> [] -> (Z.to_nat maxSteps <= fuel)%nat ->
  pointsFuel fuel fmt drinks FH SH w g = Some (pointOf fmt w g s0 :: run).
Proof.
  intros Hne Hfuel. rewrite (pointsFuel_nonempty fuel Hne).
  destruct (loop_emitted fmt (sortDrinks drinks) FH SH w g
              (lastDrinkTimeOf drinks) fuel s0) as (s' & Hs' & Hd).
  - exact Hfuel.
  - rewrite Hs'. cbn [option_map]. now rewrite Hd.
Qed.

(** The loop never runs out of fuel and no array read is out of range:
    [points] is what the simulation returns, on every input. *)
Lemma pointsFuel_total :
  pointsFuel (Z.to_nat maxSteps) fmt drinks FH SH w g = Some pts.
Proof.
  unfold points.
  destruct drinks as [|d l] eqn:E; [reflexivity|].
  rewrite <- E. rewrite pointsFuel_emitted; [reflexivity| |lia].
  now rewrite E.
Qed.

(** More fuel changes nothing. *)
Lemma pointsFuel_more (fuel : nat) :
  (Z.to_nat maxSteps <= fuel)%nat ->
  pointsFuel fuel fmt drinks FH SH w g = Some pts.
Proof.
  intros Hfuel. rewrite <- pointsFuel_total.
  destruct drinks as [|d l] eqn:E; [reflexivity|].
  rewrite <- E. rewrite !pointsFuel_emitted; try reflexivity; try lia;
    now rewrite E.
Qed.

Lemma points_run : drinks <> [] -> pts = pointOf fmt w g s0 :: run.
Proof.
  intros Hne. pose proof pointsFuel_total as H.
  rewrite pointsFuel_emitted in H; [|exact Hne|lia].
  symmetry. exact (Some_eq _ _ H).
Qed.

Lemma points_length :
  drinks <> [] -> (2 <= List.length pts <= 289)%nat.
Proof.
  intros Hne. rewrite (points_run Hne). cbn [List.length].
  pose proof (emitted_length fmt (sortDrinks drinks) FH SH w g
                (lastDrinkTimeOf drinks) (Z.to_nat maxSteps) s0) as Hle.
  pose proof (emitted_nonempty fmt (sortDrinks drinks) FH SH w g
                (lastDrinkTimeOf drinks) (Z.to_nat maxSteps - 1) s0) as Hge.
  change (S (Z.to_nat maxSteps - 1)) with (Z.to_nat maxSteps) in Hge.
  change (Z.to_nat maxSteps) with 288%nat in *. lia.
Qed.

Lemma pointOf_advance (s : LoopState) :
  pointOf fmt w g (advance fmt (sortDrinks drinks) FH SH w g s)
  = stepPoint fmt (sortDrinks drinks) FH SH w g s.
Proof. reflexivity. Qed.

(** Sample [i] shows the loop variables after [i] passes. *)
Lemma points_nth (i : nat) :
  drinks <> [] -> (i < List.length pts)%nat ->
  at_ pts i = pointOf fmt w g (state i).
Proof.
  intros Hne Hi. unfold at_. rewrite (points_run Hne) in *.
  destruct i as [|i]; [reflexivity|].
  cbn [nth List.length] in *.
  rewrite emitted_nth by lia.
  unfold stateAfter. rewrite Nat.iter_succ. now rewrite pointOf_advance.
Qed.

Lemma state_clock (i : nat) :
  currentTime (state i) = startTimeOf drinks + Z.of_nat i * stepMs /\
  timeSinceStart (state i) = Z.of_nat i * stepMs /\
  steps (state i) = Z.of_nat i.
Proof.
  unfold stateAfter.
  destruct (iter_clock fmt (sortDrinks drinks) FH SH w g s0 i)
    as (H1 & H2 & H3).
  rewrite H1, H2, H3. cbn [initialState currentTime timeSinceStart steps].
  lia.
Qed.

(** The [break] test of pass [i], read on the samples: the clock tested is
    the time of sample [i], the BAC tested is that of sample [i + 1]. *)
Lemma breaks_state (i : nat) :
  breaks (sortDrinks drinks) FH SH w g (lastDrinkTimeOf drinks) (state i)
  = (currentTime (state i) >? lastDrinkTimeOf drinks)
    && Qleb (toBAC w g (currentNetSD (state (S i)))) 0.001%Q.
Proof. reflexivity. Qed.

Lemma points_no_break (i : nat) :
  drinks <> [] -> (i + 2 < List.length pts)%nat ->
  breaks (sortDrinks drinks) FH SH w g (lastDrinkTimeOf drinks) (state i)
  = false.
Proof.
  intros Hne Hi. rewrite (points_run Hne) in Hi. cbn [List.length] in Hi.
  unfold stateAfter. apply emitted_no_break with (n := Z.to_nat maxSteps).
  lia.
Qed.

Lemma points_last_break :
  drinks <> [] ->
  List.length pts = 289%nat \/
  breaks (sortDrinks drinks) FH SH w g (lastDrinkTimeOf drinks)
         (state (List.length pts - 2)) = true.
Proof.
  intros Hne. rewrite (points_run Hne). cbn [List.length].
  destruct (emitted_last fmt (sortDrinks drinks) FH SH w g
              (lastDrinkTimeOf drinks) (Z.to_nat maxSteps) s0)
    as [Hm|[Hpos Hb]].
  - left. rewrite Hm. reflexivity.
  - right. unfold stateAfter.
    replace (S (List.length run) - 2)%nat with (List.length run - 1)%nat
      by lia.
    exact Hb.
Qed.

End RunFacts.

(** ** Two runs that agree step by step *)

Lemma filter_perm {A : Type} (f : A -> bool) (l l' : list A) :
  Permutation l l' -> Permutation (filter f l) (filter f l').
Proof.
  induction 1 as [|x l l' _ IH|x y l|l l' l'' _ IH1 _ IH2]; cbn [filter].
  - constructor.
  - destruct (f x); [now constructor|exact IH].
  - destruct (f x), (f y); try reflexivity. apply perm_swap.
  - now transitivity (filter f l').
Qed.

Lemma filter_map_comm {A : Type} (p : A -> bool) (h : A -> A) (l : list A) :
  (forall x, p (h x) = p x) -> filter p (map h l) = map h (filter p l).
Proof.
  intros Hp. induction l as [|x l IH]; cbn [map filter]; [reflexivity|].
  rewrite Hp, IH. now destruct (p x).
Qed.

Lemma insert_map (h : Drink -> Drink) (d : Drink) (l : list Drink) :
  (forall x, timestamp (h x) = timestamp x) ->
  insert (h d) (map h l) = map h (insert d l).
Proof.
  intros Hh. induction l as [|x xs IH]; cbn [insert map]; [reflexivity|].
  rewrite !Hh, IH. now destruct (timestamp d <=? timestamp x).
Qed.

Lemma sortDrinks_map (h : Drink -> Drink) (l : list Drink) :
  (forall x, timestamp (h x) = timestamp x) ->
  sortDrinks (map h l) = map h (sortDrinks l).
Proof.
  intros Hh. induction l as [|d ds IH]; cbn [sortDrinks map]; [reflexivity|].
  now rewrite IH, insert_map.
Qed.

Section Congruence.

Variable fmt : Z -> string.
Variables L1 L2 : list Drink.
Variables FH SH w1 w2 : Q.
Variable g : Gender.
Variable tl t0 : Z.

Hypothesis toBAC_agree : forall n, toBAC w1 g n = toBAC w2 g n.
Hypothesis step_agree :
  forall s, onSchedule t0 s -> steps s < maxSteps ->
    stepNetSD L1 FH SH s = stepNetSD L2 FH SH s.

Lemma onSchedule_advance (s : LoopState) :
  onSchedule t0 s -> onSchedule t0 (advance fmt L1 FH SH w1 g s).
Proof.
  unfold onSchedule. cbn [advance currentTime steps]. lia.
Qed.

Lemma advance_agree (s : LoopState) :
  onSchedule t0 s -> steps s < maxSteps ->
  advance fmt L1 FH SH w1 g s = advance fmt L2 FH SH w2 g s /\
  atBreak fmt L1 FH SH w1 g s = atBreak fmt L2 FH SH w2 g s /\
  breaks L1 FH SH w1 g tl s = breaks L2 FH SH w2 g tl s.
Proof.
  intros Hs Hlt. unfold advance, atBreak, breaks, stepPoint.
  now rewrite (step_agree s Hs Hlt), toBAC_agree.
Qed.

Lemma loop_agree (fuel : nat) :
  forall s, onSchedule t0 s ->
    loop fmt L1 FH SH w1 g tl fuel s = loop fmt L2 FH SH w2 g tl fuel s.
Proof.
  induction fuel as [|fuel IH]; intros s Hs; cbn [loop].
  - reflexivity.
  - destruct (steps s <? maxSteps) eqn:E; [|reflexivity].
    apply Z.ltb_lt in E.
    destruct (advance_agree s Hs E) as (Ha & Hb & Hc).
    rewrite Hc, Hb, <- Ha. destruct (breaks L2 FH SH w2 g tl s);
      [reflexivity|].
    apply IH, onSchedule_advance, Hs.
Qed.

End Congruence.

Lemma initialState_onSchedule (fmt : Z -> string) (L : list Drink) (w : Q)
    (g : Gender) (t0 : Z) :
  onSchedule t0 (initialState fmt L w g t0).
Proof. unfold onSchedule. cbn. lia. Qed.

(** * The properties of the specification *)

(** ** C6: at most 289 samples *)

(** C6.  For every input the simulation returns (the loop does not outlive
    its [maxSteps] units of fuel) and the returned sequence has at most 289
    samples: the initial one and at most 288 pushed by the loop; a
    non-empty run that ends with fewer than 289 samples ended on the
    [break]. *)
Theorem sample_count_at_most_289 (fmt : Z -> string) (drinks : list Drink)
    (FH SH w : Q) (g : Gender) :
  maxSteps = 288 /\
  pointsFuel (Z.to_nat maxSteps) fmt drinks FH SH w g
  = Some (points fmt drinks FH SH w g) /\
  (List.length (points fmt drinks FH SH w g) <= 289)%nat /\
  (drinks = [] \/
   List.length (points fmt drinks FH SH w g) = 289%nat \/
   breaks (sortDrinks drinks) FH SH w g (lastDrinkTimeOf drinks)
          (stateAfter fmt drinks FH SH w g
             (List.length (points fmt drinks FH SH w g) - 2)) = true).
Proof.
  split; [reflexivity|]. split; [apply pointsFuel_total|].
  destruct drinks as [|d l] eqn:E.
  - split; [cbn; lia|now left].
  - rewrite <- E. assert (Hne : drinks <> []) by now rewrite E.
    split; [apply points_length, Hne|].
    right. apply points_last_break, Hne.
Qed.

(** ** C9: empty output exactly on empty input *)

(** C9.  The simulation returns the empty sequence exactly when the drink
    list is empty; on the empty list it returns (no exception) and the
    summary pass yields nothing; every non-empty input yields at least two
    samples. *)
Theorem empty_output_iff_empty_input (fmt : Z -> string)
    (drinks : list Drink) (FH SH w : Q) (g : Gender) :
  (points fmt drinks FH SH w g = [] <-> drinks = []) /\
  pointsFuel (Z.to_nat maxSteps) fmt [] FH SH w g = Some [] /\
  soberTimeInfo (points fmt [] FH SH w g) = None /\
  (drinks <> [] -> (2 <= List.length (points fmt drinks FH SH w g))%nat).
Proof.
  assert (H2 : drinks <> [] ->
               (2 <= List.length (points fmt drinks FH SH w g))%nat).
  { intros Hne. apply points_length, Hne. }
  repeat split; try reflexivity; try exact H2.
  - intros Hp. destruct drinks as [|d l]; [reflexivity|].
    assert (Hne : d :: l <> []) by easy.
    specialize (H2 Hne). rewrite Hp in H2. cbn in H2. lia.
  - intros ->. reflexivity.
Qed.

Lemma empty_output_iff_empty_input_witness :
  (2 <= List.length (points utcLabel [pint] 2 1 80 male))%nat.
Proof.
  destruct (empty_output_iff_empty_input utcLabel [pint] 2 1 80 male)
    as (_ & _ & _ & H).
  apply H. discriminate.
Defined.

(** ** C7: sample times *)

(** C7.  On a non-empty input, with [t0] the earliest timestamp of the
    list, sample [i] has time [t0 + i * 300000]; in particular the first
    sample is at [t0] and the times increase strictly from each sample to
    the next. *)
Theorem sample_times (fmt : Z -> string) (drinks : list Drink)
    (FH SH w : Q) (g : Gender) :
  drinks <> [] ->
  let pts := points fmt drinks FH SH w g in
  let t0 := startTimeOf drinks in
  (exists d, In d drinks /\ timestamp d = t0) /\
  (forall d, In d drinks -> t0 <= timestamp d) /\
  Point.time (at_ pts 0) = t0 /\
  (forall i, (i < List.length pts)%nat ->
     Point.time (at_ pts i) = t0 + Z.of_nat i * 300000) /\
  (forall i, (S i < List.length pts)%nat ->
     Point.time (at_ pts i) < Point.time (at_ pts (S i))).
Proof.
  intros Hne pts t0.
  assert (Ht : forall i, (i < List.length pts)%nat ->
                 Point.time (at_ pts i) = t0 + Z.of_nat i * 300000).
  { intros i Hi. unfold pts. rewrite points_nth by assumption.
    cbn [pointOf Point.time].
    destruct (state_clock fmt drinks FH SH w g i) as (-> & _).
    reflexivity. }
  destruct (startTimeOf_min drinks Hne) as [Hex Hmin].
  repeat split; try assumption.
  - rewrite Ht; [lia|]. pose proof (points_length fmt drinks FH SH w g Hne).
    fold pts in H. lia.
  - intros i Hi. rewrite !Ht by lia. lia.
Qed.

Lemma sample_times_witness :
  Point.time (at_ (points utcLabel [pintHalfSecondLater; pint] 2 1 80 male) 3)
  = eightPm + 3 * 300000.
Proof.
  destruct (sample_times utcLabel [pintHalfSecondLater; pint] 2 1 80 male)
    as (_ & _ & _ & H & _).
  - discriminate.
  - apply (H 3%nat). vm_compute. lia.
Defined.

(** ** C5: the order of the input list, in exact arithmetic *)

Lemma sortDrinks_perm2 (l l' : list Drink) :
  Permutation l l' -> Permutation (sortDrinks l) (sortDrinks l').
Proof.
  intros Hp. rewrite !sortDrinks_perm. exact Hp.
Qed.

Lemma stepNetSD_perm (L1 L2 : list Drink) (FH SH : Q) (s : LoopState) :
  Permutation L1 L2 -> stepNetSD L1 FH SH s = stepNetSD L2 FH SH s.
Proof.
  intros Hp. unfold stepNetSD. f_equal. now apply addAll_perm, filter_perm.
Qed.

Lemma initialState_perm (fmt : Z -> string) (L1 L2 : list Drink) (w : Q)
    (g : Gender) (t0 : Z) :
  Permutation L1 L2 -> initialState fmt L1 w g t0 = initialState fmt L2 w g t0.
Proof.
  intros Hp. unfold initialState.
  now rewrite (addAll_perm _ _ (filter_perm (isInitial t0) _ _ Hp)).
Qed.

Lemma points_perm_exact (fmt : Z -> string) (drinks1 drinks2 : list Drink)
    (FH SH w : Q) (g : Gender) :
  Permutation drinks1 drinks2 ->
  points fmt drinks1 FH SH w g = points fmt drinks2 FH SH w g.
Proof.
  intros Hp. destruct drinks1 as [|a l1] eqn:E1.
  - apply Permutation_nil in Hp. now subst.
  - rewrite <- E1 in *.
    assert (Hne1 : drinks1 <> []) by now rewrite E1.
    assert (Hne2 : drinks2 <> []).
    { intros ->. apply Permutation_sym, Permutation_nil in Hp. easy. }
    unfold points. rewrite !pointsFuel_nonempty by assumption.
    rewrite (startTimeOf_perm _ _ Hp), (lastDrinkTimeOf_perm _ _ Hp).
    rewrite (initialState_perm fmt _ _ w g _ (sortDrinks_perm2 _ _ Hp)).
    rewrite (loop_agree fmt (sortDrinks drinks1) (sortDrinks drinks2)
               FH SH w w g (lastDrinkTimeOf drinks2) (startTimeOf drinks2)).
    + reflexivity.
    + reflexivity.
    + intros s _ _. apply stepNetSD_perm, sortDrinks_perm2, Hp.
    + apply initialState_onSchedule.
Qed.

(** ** C8: non-negative BAC and the weight clamp *)

Lemma r_pos (g : Gender) : (0 < r g)%Q.
Proof. destruct g; reflexivity. Qed.

Lemma effectiveWeight_pos (w : Q) : (0 < effectiveWeight w)%Q.
Proof.
  unfold effectiveWeight. destruct (Qltb 0 w) eqn:E.
  - now apply Qltb_true.
  - reflexivity.
Qed.

Lemma divisor_pos (w : Q) (g : Gender) : (0 < effectiveWeight w * r g)%Q.
Proof.
  apply Qmult_lt_0_compat; [apply effectiveWeight_pos | apply r_pos].
Qed.

Lemma toBAC_nonneg (w : Q) (g : Gender) (n : Q) :
  (0 <= n)%Q -> (0 <= toBAC w g n)%Q.
Proof.
  intros Hn. unfold toBAC. apply Qle_shift_div_l; [apply divisor_pos|].
  lra.
Qed.

Lemma metabolize_nonneg (n burn : Q) :
  (0 <= n)%Q -> (0 <= metabolize n burn)%Q.
Proof.
  intros Hn. unfold metabolize.
  destruct (Qltb 0 n); [|exact Hn].
  destruct (Qltb (n - burn) 0) eqn:E; [lra|].
  now apply Qltb_false in E.
Qed.

Lemma wellFormed_nonneg (d : Drink) :
  wellFormed d -> (0 <= standardDrinks d)%Q.
Proof.
  intros (Hv & Ha & _ & ->). unfold calculateStandardDrinks.
  repeat apply Qmult_le_0_compat; try lra; easy.
Qed.

Lemma units_nonneg_filter (p : Drink -> bool) (drinks : list Drink) :
  Forall (fun d => (0 <= standardDrinks d)%Q) drinks ->
  Forall (fun d => (0 <= standardDrinks d)%Q) (filter p (sortDrinks drinks)).
Proof.
  intros Hwf. rewrite Forall_forall in *. intros d Hd.
  apply filter_In in Hd. destruct Hd as [Hd _].
  apply Hwf.
  exact (Permutation_in _ (sortDrinks_perm drinks) Hd).
Qed.

Lemma state_nonneg (fmt : Z -> string) (drinks : list Drink) (FH SH w : Q)
    (g : Gender) (i : nat) :
  Forall (fun d => (0 <= standardDrinks d)%Q) drinks ->
  (0 <= currentNetSD (stateAfter fmt drinks FH SH w g i))%Q.
Proof.
  intros Hwf. unfold stateAfter. induction i as [|i IH].
  - cbn. apply addAll_nonneg; [now apply units_nonneg_filter|lra].
  - rewrite Nat.iter_succ. cbn [advance currentNetSD]. unfold stepNetSD.
    apply metabolize_nonneg, addAll_nonneg;
      [now apply units_nonneg_filter|exact IH].
Qed.

Lemma toBAC_weight_zero (g : Gender) (n : Q) : toBAC 0 g n = toBAC 1 g n.
Proof. reflexivity. Qed.

Lemma points_weight_agree (fmt : Z -> string) (drinks : list Drink)
    (FH SH w1 w2 : Q) (g : Gender) :
  (forall n, toBAC w1 g n = toBAC w2 g n) ->
  points fmt drinks FH SH w1 g = points fmt drinks FH SH w2 g.
Proof.
  intros Hw. destruct drinks as [|a l] eqn:E; [reflexivity|].
  rewrite <- E. assert (Hne : drinks <> []) by now rewrite E.
  unfold points. rewrite !pointsFuel_nonempty by assumption.
  rewrite (loop_agree fmt (sortDrinks drinks) (sortDrinks drinks)
             FH SH w1 w2 g (lastDrinkTimeOf drinks) (startTimeOf drinks)).
  - unfold initialState. now rewrite Hw.
  - exact Hw.
  - reflexivity.
  - apply initialState_onSchedule.
Qed.

(** C8, without the finiteness.  When every drink has a positive volume, a
    percentage in [[0, 100]] and the units [addDrink] computes from them,
    then for any weight, zero and negative ones included: the divisor of
    the BAC conversion is positive (no division by zero), every sample has
    [0 <= bac], and the run with weight 0 is the run with weight 1.  That
    a sample is finite is not part of it: in binary64 it need not be, see
    [tiny_weight_gives_infinite_bac]. *)
Theorem bac_nonneg_and_weight_clamp (fmt : Z -> string) (drinks : list Drink)
    (FH SH w : Q) (g : Gender) :
  Forall wellFormed drinks ->
  (0 < effectiveWeight w * r g)%Q /\
  (forall p, In p (points fmt drinks FH SH w g) -> (0 <= Point.bac p)%Q) /\
  points fmt drinks FH SH 0 g = points fmt drinks FH SH 1 g.
Proof.
  intros Hwf. split; [apply divisor_pos|]. split.
  - intros p Hp. destruct drinks as [|a l] eqn:E; [destruct Hp|].
    rewrite <- E in *. assert (Hne : drinks <> []) by now rewrite E.
    destruct (In_nth _ _ noPoint Hp) as (i & Hi & <-).
    fold (at_ (points fmt drinks FH SH w g) i).
    rewrite points_nth by assumption. cbn [pointOf Point.bac].
    apply toBAC_nonneg, state_nonneg.
    eapply Forall_impl; [|exact Hwf]. apply wellFormed_nonneg.
  - apply points_weight_agree, toBAC_weight_zero.
Qed.

Lemma bac_nonneg_and_weight_clamp_witness :
  points utcLabel [pint; nipLight] 2 1 0 male
  = points utcLabel [pint; nipLight] 2 1 1 male.
Proof.
  apply (bac_nonneg_and_weight_clamp utcLabel [pint; nipLight] 2 1 (-3) male).
  repeat constructor; vm_compute; try reflexivity; discriminate.
Defined.

(** ** C10: a drink more than a day after the first *)

Lemma reweighLate_timestamp (t0 : Z) (f : Drink -> Q) (x : Drink) :
  timestamp (reweighLate t0 f x) = timestamp x.
Proof. unfold reweighLate. now destruct (timestamp x >? t0 + dayMs). Qed.

Lemma reweighLate_early (t0 : Z) (f : Drink -> Q) (x : Drink) :
  timestamp x <= t0 + dayMs -> reweighLate t0 f x = x.
Proof.
  intros Hx. unfold reweighLate.
  destruct (timestamp x >? t0 + dayMs) eqn:E; [|reflexivity].
  apply Z.gtb_lt in E. lia.
Qed.

Lemma startTimeOf_map (h : Drink -> Drink) (l : list Drink) :
  (forall x, timestamp (h x) = timestamp x) ->
  startTimeOf (map h l) = startTimeOf l.
Proof.
  intros Hh. unfold startTimeOf. rewrite (sortDrinks_map h l Hh).
  rewrite nth_error_map.
  destruct (nth_error (sortDrinks l) 0); cbn [option_map]; auto.
Qed.

Lemma lastDrinkTimeOf_map (h : Drink -> Drink) (l : list Drink) :
  (forall x, timestamp (h x) = timestamp x) ->
  lastDrinkTimeOf (map h l) = lastDrinkTimeOf l.
Proof.
  intros Hh. unfold lastDrinkTimeOf. rewrite (sortDrinks_map h l Hh).
  rewrite nth_error_map, length_map.
  destruct (nth_error (sortDrinks l) _); cbn [option_map]; auto.
Qed.

(** Units summed over a filter that only lets through drinks of the first
    day do not see the replaced units. *)
Lemma addAll_reweighLate (t0 : Z) (f : Drink -> Q) (p : Drink -> bool)
    (L : list Drink) (acc : Q) :
  (forall x, p (reweighLate t0 f x) = p x) ->
  (forall x, p x = true -> timestamp x <= t0 + dayMs) ->
  addAll acc (filter p (map (reweighLate t0 f) L)) = addAll acc (filter p L).
Proof.
  intros Hp Hearly. rewrite filter_map_comm by exact Hp.
  apply addAll_ext. rewrite Forall_forall. intros x Hx.
  apply filter_In in Hx. destruct Hx as [_ Hx].
  now rewrite reweighLate_early by auto.
Qed.

Lemma isInitial_reweighLate (t0 t : Z) (f : Drink -> Q) (x : Drink) :
  isInitial t (reweighLate t0 f x) = isInitial t x.
Proof. unfold isInitial. now rewrite reweighLate_timestamp. Qed.

Lemma inInterval_reweighLate (t0 a b : Z) (f : Drink -> Q) (x : Drink) :
  inInterval a b (reweighLate t0 f x) = inInterval a b x.
Proof. unfold inInterval. now rewrite reweighLate_timestamp. Qed.

Lemma inInterval_true (a b : Z) (x : Drink) :
  inInterval a b x = true <-> a < timestamp x <= b.
Proof.
  unfold inInterval. rewrite andb_true_iff, Z.gtb_lt, Z.leb_le. tauto.
Qed.

Lemma isInitial_true (t : Z) (x : Drink) :
  isInitial t x = true <-> t - 1000 < timestamp x < t + 1000.
Proof. unfold isInitial. rewrite Z.ltb_lt. lia. Qed.

Lemma stepMs_day : Z.of_nat (Z.to_nat maxSteps) * stepMs = dayMs.
Proof. reflexivity. Qed.

(** C10.  With [t0] the earliest timestamp of the input, a drink [d] whose
    timestamp is more than 24 hours after [t0] passes neither the initial filter nor the interval filter
    of any of the 288 passes; the clock of every sample stays before its
    timestamp; the [break] test fails at every pass, so the run has all
    289 samples; and the samples do not depend on the units of such
    drinks: replacing them by any other values gives the same
    sequence. *)
Theorem late_drink_never_counted (fmt : Z -> string) (drinks : list Drink)
    (FH SH w : Q) (g : Gender) (d : Drink) :
  In d drinks ->
  timestamp d > startTimeOf drinks + dayMs ->
  let t0 := startTimeOf drinks in
  let pts := points fmt drinks FH SH w g in
  (exists x, In x drinks /\ timestamp x = t0) /\
  (forall x, In x drinks -> t0 <= timestamp x) /\
  isInitial t0 d = false /\
  (forall i, (i < 288)%nat ->
     inInterval (t0 + Z.of_nat i * stepMs) (t0 + Z.of_nat (S i) * stepMs) d
     = false) /\
  (forall i, (i < List.length pts)%nat ->
     Point.time (at_ pts i) < timestamp d) /\
  (forall i, (i < 288)%nat ->
     breaks (sortDrinks drinks) FH SH w g (lastDrinkTimeOf drinks)
            (stateAfter fmt drinks FH SH w g i) = false) /\
  List.length pts = 289%nat /\
  (forall f : Drink -> Q,
     points fmt (map (reweighLate t0 f) drinks) FH SH w g = pts).
Proof.
  intros Hd Hlate t0 pts.
  assert (Hne : drinks <> []) by (intros ->; destruct Hd).
  destruct (lastDrinkTimeOf_max drinks Hne) as [_ Hmax].
  pose proof (Hmax d Hd) as Hlast.
  pose proof (points_length fmt drinks FH SH w g Hne) as Hlen. fold pts in Hlen.
  assert (Hnb : forall i, (i < 288)%nat ->
            breaks (sortDrinks drinks) FH SH w g (lastDrinkTimeOf drinks)
                   (stateAfter fmt drinks FH SH w g i) = false).
  { intros i Hi. unfold breaks.
    destruct (state_clock fmt drinks FH SH w g i) as (-> & _).
    replace (_ >? _) with false; [reflexivity|].
    symmetry. rewrite Z.gtb_ltb. apply Z.ltb_ge.
    fold t0 in Hlate |- *. unfold dayMs, stepMs in *. lia. }
  destruct (startTimeOf_min drinks Hne) as [Hex Hmin].
  split; [exact Hex|]. split; [exact Hmin|]. clear Hex Hmin.
  split; [|split; [|split; [|split; [|split]]]].
  - apply not_true_iff_false. rewrite isInitial_true.
    fold t0 in Hlate. unfold dayMs in *. lia.
  - intros i Hi. apply not_true_iff_false. rewrite inInterval_true.
    fold t0 in Hlate. unfold dayMs, stepMs in *. lia.
  - intros i Hi. unfold pts. rewrite points_nth by assumption.
    cbn [pointOf Point.time].
    destruct (state_clock fmt drinks FH SH w g i) as (-> & _).
    fold t0 in Hlate |- *. unfold dayMs, stepMs in *. lia.
  - exact Hnb.
  - destruct (points_last_break fmt drinks FH SH w g Hne) as [H|H];
      [exact H|].
    fold pts in H. rewrite Hnb in H by lia. discriminate.
  - intros f. unfold pts.
    set (h := reweighLate t0 f).
    assert (Hh : forall x, timestamp (h x) = timestamp x)
      by (intros x; apply reweighLate_timestamp).
    assert (Hne' : map h drinks <> []) by (destruct drinks; easy).
    unfold points. rewrite !pointsFuel_nonempty by assumption.
    rewrite (startTimeOf_map h drinks Hh), (lastDrinkTimeOf_map h drinks Hh).
    rewrite (sortDrinks_map h drinks Hh). fold t0.
    assert (Hinit : initialState fmt (map h (sortDrinks drinks)) w g t0
                    = initialState fmt (sortDrinks drinks) w g t0).
    { unfold initialState, h. rewrite addAll_reweighLate; [reflexivity| |].
      - intros x. apply isInitial_reweighLate.
      - intros x Hx. apply isInitial_true in Hx. unfold dayMs. lia. }
    rewrite Hinit.
    rewrite (loop_agree fmt (map h (sortDrinks drinks)) (sortDrinks drinks)
               FH SH w w g (lastDrinkTimeOf drinks) t0).
    + reflexivity.
    + reflexivity.
    + intros s [Hs1 Hs2] Hlt. unfold stepNetSD, h.
      rewrite addAll_reweighLate; [reflexivity| |].
      * intros x. apply inInterval_reweighLate.
      * intros x Hx. apply inInterval_true in Hx.
        unfold dayMs, stepMs, maxSteps in *.
        change (24 * 60 / 5) with 288 in Hlt. lia.
    + apply initialState_onSchedule.
Qed.

Lemma late_drink_never_counted_witness :
  List.length (points utcLabel [pintNextDay; pint] 2 1 80 male) = 289%nat.
Proof.
  apply (late_drink_never_counted utcLabel [pintNextDay; pint] 2 1 80 male
           pintNextDay).
  - left. reflexivity.
  - vm_compute. reflexivity.
Defined.

(** ** C2: the summary pass *)

Lemma findPeak_fold (pts : list Point.t) (m : nat) :
  forall a k0,
    (k0 < a)%nat ->
    (forall j, (j < a)%nat -> (bacAt pts j <= bacAt pts k0)%Q) ->
    (forall j, (j < k0)%nat -> (bacAt pts j < bacAt pts k0)%Q) ->
    let k := fold_left
               (fun peakIndex i =>
                  if Qltb (Point.bac (at_ pts peakIndex)) (Point.bac (at_ pts i))
                  then i else peakIndex) (seq a m) k0 in
    (k < a + m)%nat /\
    (forall j, (j < a + m)%nat -> (bacAt pts j <= bacAt pts k)%Q) /\
    (forall j, (j < k)%nat -> (bacAt pts j < bacAt pts k)%Q).
Proof.
  induction m as [|m IH]; intros a k0 Hk0 Hmax Hfirst; cbn [seq fold_left].
  - rewrite Nat.add_0_r. auto.
  - replace (a + S m)%nat with (S a + m)%nat by lia.
    fold (bacAt pts k0). fold (bacAt pts a).
    destruct (Qltb (bacAt pts k0) (bacAt pts a)) eqn:E.
    + apply Qltb_true in E. apply IH.
      * lia.
      * intros j Hj. destruct (Nat.eq_dec j a) as [->|Hja]; [lra|].
        specialize (Hmax j ltac:(lia)). lra.
      * intros j Hj. specialize (Hmax j Hj). lra.
    + apply Qltb_false in E. apply IH.
      * lia.
      * intros j Hj. destruct (Nat.eq_dec j a) as [->|Hja]; [exact E|].
        apply Hmax. lia.
      * exact Hfirst.
Qed.

Lemma findPeakIndex_spec (pts : list Point.t) :
  pts <> [] ->
  let k := findPeakIndex pts in
  (k < List.length pts)%nat /\
  (forall j, (j < List.length pts)%nat -> (bacAt pts j <= bacAt pts k)%Q) /\
  (forall j, (j < k)%nat -> (bacAt pts j < bacAt pts k)%Q).
Proof.
  intros Hne.
  assert (Hlen : List.length pts = (1 + (List.length pts - 1))%nat).
  { destruct pts; [easy|cbn; lia]. }
  assert (H : forall j, (j < 1)%nat -> (bacAt pts j <= bacAt pts 0)%Q).
  { intros j Hj. replace j with 0%nat by lia. lra. }
  pose proof (findPeak_fold pts (List.length pts - 1) 1 0 Nat.lt_0_1 H
                ltac:(intros j Hj; lia)) as Hfold.
  rewrite <- Hlen in Hfold. exact Hfold.
Qed.

(** [find] over a range of indices returns the first index that passes. *)
Lemma find_seq_some (p : nat -> bool) (n : nat) :
  forall a i,
    find p (seq a n) = Some i <->
    ((a <= i < a + n)%nat /\ p i = true /\
     forall j, (a <= j < i)%nat -> p j = false).
Proof.
  induction n as [|n IH]; intros a i; cbn [seq find].
  - split; [discriminate|]. intros [H _]. lia.
  - destruct (p a) eqn:E.
    + split.
      * intros [= <-]. split; [lia|]. split; [exact E|]. intros j Hj. lia.
      * intros (Hi & Hp & Hfirst). f_equal.
        destruct (Nat.eq_dec a i) as [->|Hai]; [reflexivity|].
        rewrite (Hfirst a) in E by lia. discriminate.
    + rewrite IH. split.
      * intros (Hi & Hp & Hfirst). split; [lia|]. split; [exact Hp|].
        intros j Hj. destruct (Nat.eq_dec j a) as [->|Hja]; [exact E|].
        apply Hfirst. lia.
      * intros (Hi & Hp & Hfirst).
        assert (a <> i) by (intros ->; rewrite Hp in E; discriminate).
        split; [lia|]. split; [exact Hp|].
        intros j Hj. apply Hfirst. lia.
Qed.

Lemma find_seq_none (p : nat -> bool) (n : nat) :
  forall a,
    find p (seq a n) = None <-> forall j, (a <= j < a + n)%nat -> p j = false.
Proof.
  induction n as [|n IH]; intros a; cbn [seq find].
  - split; [intros _ j Hj; lia|reflexivity].
  - destruct (p a) eqn:E.
    + split; [discriminate|]. intros H. rewrite (H a) in E by lia.
      discriminate.
    + rewrite IH. split.
      * intros H j Hj. destruct (Nat.eq_dec j a) as [->|Hja]; [exact E|].
        apply H. lia.
      * intros H j Hj. apply H. lia.
Qed.

(** C2.  On a non-empty sample sequence the summary pass takes as peak the
    first index whose [bac] is the maximum.  With a peak below 0.05 it
    reports [under], with no crossing time.  Otherwise it reports [over]:
    when [i] is the first index at or after the peak with [bac <= 0.05], the
    crossing point is the time and label of sample [i], and [projected] is
    not set; when no index at or after the peak has [bac <= 0.05], it is
    the time and label of the last sample, with [projected] true. *)
Theorem summary_pass (pts : list Point.t) :
  pts <> [] ->
  let k := findPeakIndex pts in
  let n := List.length pts in
  ((k < n)%nat /\
   (forall j, (j < n)%nat -> (bacAt pts j <= bacAt pts k)%Q) /\
   (forall j, (j < k)%nat -> (bacAt pts j < bacAt pts k)%Q)) /\
  ((bacAt pts k < 0.05)%Q ->
   soberTimeInfo pts = Some (Info.mk Info.under (bacAt pts k) None None None)) /\
  (forall i,
     (0.05 <= bacAt pts k)%Q ->
     (k <= i < n)%nat -> (bacAt pts i <= 0.05)%Q ->
     (forall j, (k <= j < i)%nat -> (0.05 < bacAt pts j)%Q) ->
     exists info,
       soberTimeInfo pts = Some info /\
       info = Info.mk Info.over (bacAt pts k) (Some (Point.time (at_ pts i)))
                      (Some (Point.label (at_ pts i))) None /\
       Info.isProjected info = false) /\
  ((0.05 <= bacAt pts k)%Q ->
   (forall j, (k <= j < n)%nat -> (0.05 < bacAt pts j)%Q) ->
   exists info,
     soberTimeInfo pts = Some info /\
     info = Info.mk Info.over (bacAt pts k)
                    (Some (Point.time (at_ pts (n - 1))))
                    (Some (Point.label (at_ pts (n - 1)))) (Some true) /\
     Info.isProjected info = true).
Proof.
  intros Hne k n.
  pose proof (findPeakIndex_spec pts Hne) as Hpeak. fold k n in Hpeak.
  assert (Hlen : (List.length pts =? 0)%nat = false).
  { apply Nat.eqb_neq. destruct pts; [easy|cbn; lia]. }
  split; [exact Hpeak|]. destruct Hpeak as (Hk & _).
  unfold soberTimeInfo. rewrite Hlen. fold k n. fold (bacAt pts k).
  split; [|split].
  - intros Hlow. apply Qltb_true in Hlow. now rewrite Hlow.
  - intros i Hhigh Hi Hcross Hfirst.
    apply Qltb_false in Hhigh. rewrite Hhigh.
    assert (Hfind : find (fun i => Qleb (Point.bac (at_ pts i)) 0.05)
                         (seq k (n - k)) = Some i).
    { apply find_seq_some. split; [lia|]. split.
      - now apply Qleb_true.
      - intros j Hj. apply Qleb_false. apply Hfirst, Hj. }
    rewrite Hfind. eexists. repeat split.
  - intros Hhigh Hnone. apply Qltb_false in Hhigh. rewrite Hhigh.
    assert (Hfind : find (fun i => Qleb (Point.bac (at_ pts i)) 0.05)
                         (seq k (n - k)) = None).
    { apply find_seq_none. intros j Hj. apply Qleb_false, Hnone. lia. }
    rewrite Hfind. eexists. repeat split.
Qed.

Lemma summary_pass_witness :
  exists info,
    soberTimeInfo risingThenFalling = Some info /\
    info = Info.mk Info.over 0.09%Q (Some 900000) (Some "20:15"%string) None /\
    Info.isProjected info = false.
Proof.
  destruct (summary_pass risingThenFalling) as (_ & _ & H & _).
  - discriminate.
  - apply (H 3%nat).
    + vm_compute. discriminate.
    + vm_compute. lia.
    + vm_compute. discriminate.
    + intros j Hj. vm_compute in Hj.
      do 3 (destruct j as [|j]; [try lia; vm_compute; reflexivity|]). lia.
Defined.

(** ** C3: the flatline stop *)

(** C3, as the code has it.  With [tl] the latest timestamp of the input:
    the loop stops right after pushing the first sample [i + 1] such that
    the clock before the pass, which is the time of the previous sample
    [i], is past [tl] and the BAC of sample [i + 1] is at most 0.001.  No
    earlier sample has that property, and the last sample has it unless the
    run has all 289 samples. *)
Theorem flatline_stop (fmt : Z -> string) (drinks : list Drink)
    (FH SH w : Q) (g : Gender) :
  drinks <> [] ->
  let pts := points fmt drinks FH SH w g in
  let n := List.length pts in
  let tl := lastDrinkTimeOf drinks in
  (exists d, In d drinks /\ timestamp d = tl) /\
  (forall d, In d drinks -> timestamp d <= tl) /\
  (forall i, (i + 2 < n)%nat ->
     ~ (Point.time (at_ pts i) > tl /\ (bacAt pts (S i) <= 0.001)%Q)) /\
  (n = 289%nat \/
   (Point.time (at_ pts (n - 2)) > tl /\ (bacAt pts (n - 1) <= 0.001)%Q)).
Proof.
  intros Hne pts n tl.
  destruct (lastDrinkTimeOf_max drinks Hne) as [Hex Hmax].
  pose proof (points_length fmt drinks FH SH w g Hne) as Hlen.
  fold pts n in Hlen.
  assert (Hread : forall i, (S i < n)%nat ->
            breaks (sortDrinks drinks) FH SH w g tl
                   (stateAfter fmt drinks FH SH w g i)
            = (Point.time (at_ pts i) >? tl) && Qleb (bacAt pts (S i)) 0.001).
  { intros i Hi. rewrite breaks_state. unfold bacAt, pts.
    rewrite !points_nth by (try assumption; fold pts n; lia).
    reflexivity. }
  split; [exact Hex|]. split; [exact Hmax|]. split.
  - intros i Hi [Ht Hb].
    pose proof (points_no_break fmt drinks FH SH w g i Hne Hi) as Hnb.
    fold tl in Hnb. rewrite Hread in Hnb by lia.
    apply andb_false_iff in Hnb. destruct Hnb as [Hnb|Hnb].
    + rewrite Z.gtb_ltb in Hnb. apply Z.ltb_ge in Hnb. lia.
    + apply Qleb_false in Hnb. lra.
  - destruct (points_last_break fmt drinks FH SH w g Hne) as [H|H];
      [now left|right].
    fold pts n tl in H. rewrite Hread in H by lia.
    apply andb_true_iff in H. destruct H as [Ht Hb].
    rewrite Z.gtb_ltb in Ht. apply Z.ltb_lt in Ht. apply Qleb_true in Hb.
    replace (S (n - 2)) with (n - 1)%nat in Hb by lia.
    split; [lia|exact Hb].
Qed.

Lemma flatline_stop_witness :
  let pts := points utcLabel [nipLight] 2 1 80 male in
  ~ (Point.time (at_ pts 0) > lastDrinkTimeOf [nipLight] /\
     (bacAt pts 1 <= 0.001)%Q).
Proof.
  destruct (flatline_stop utcLabel [nipLight] 2 1 80 male) as (_ & _ & H & _).
  - discriminate.
  - apply (H 0%nat). vm_compute. lia.
Defined.

(** C3 with the clock of the sample just pushed fails: after a nip of light
    beer, sample 1 is
    past the last (only) drink and has BAC 0, and the loop goes on to push
    sample 2: the clock the code tests is the one before the pass. *)
Lemma flatline_stop_not_on_emitted_clock :
  let pts := points utcLabel [nipLight] 2 1 80 male in
  ~ (forall i, (1 <= i < List.length pts)%nat ->
       Point.time (at_ pts i) > lastDrinkTimeOf [nipLight] ->
       (bacAt pts i <= 0.001)%Q ->
       i = (List.length pts - 1)%nat).
Proof.
  intros pts H. specialize (H 1%nat).
  assert (Hi : (1 <= 1 < List.length pts)%nat) by (vm_compute; lia).
  assert (Ht : Point.time (at_ pts 1) > lastDrinkTimeOf [nipLight])
    by (vm_compute; reflexivity).
  assert (Hb : (bacAt pts 1 <= 0.001)%Q) by (vm_compute; discriminate).
  specialize (H Hi Ht Hb). vm_compute in H. discriminate.
Qed.

(** ** C4: what a step metabolizes *)





Lemma unitsIn_cons (a b : Z) (x : Drink) (l : list Drink) :
  (unitsIn a b (x :: l)
   == (if inInterval a b x then standardDrinks x else 0) + unitsIn a b l)%Q.
Proof.
  unfold unitsIn. cbn [filter]. destruct (inInterval a b x).
  - unfold addAll at 1. cbn [fold_left].
    fold (addAll (0 + standardDrinks x) (filter (inInterval a b) l)).
    rewrite addAll_plus. ring.
  - ring.
Qed.

(** Adjacent half-open intervals add up: no drink is in both, none falls
    between them. *)
Lemma unitsIn_split (a b c : Z) (l : list Drink) :
  a <= b <= c -> (unitsIn a c l == unitsIn a b l + unitsIn b c l)%Q.
Proof.
  intros Habc. induction l as [|x l IH].
  - reflexivity.
  - rewrite !unitsIn_cons, IH.
    destruct (inInterval a c x) eqn:Eac, (inInterval a b x) eqn:Eab,
             (inInterval b c x) eqn:Ebc; try ring;
      repeat match goal with
             | H : inInterval _ _ _ = true |- _ => apply inInterval_true in H
             | H : inInterval _ _ _ = false |- _ =>
                 apply not_true_iff_false in H; rewrite inInterval_true in H
             end; lia.
Qed.

Lemma unitsIn_empty (a : Z) (l : list Drink) : (unitsIn a a l == 0)%Q.
Proof.
  induction l as [|x l IH]; [reflexivity|].
  rewrite unitsIn_cons, IH.
  destruct (inInterval a a x) eqn:E; [|ring].
  apply inInterval_true in E. lia.
Qed.

Lemma unitsIn_perm (a b : Z) (l l' : list Drink) :
  Permutation l l' -> unitsIn a b l = unitsIn a b l'.
Proof. intros Hp. unfold unitsIn. now apply addAll_perm, filter_perm. Qed.

Section Metabolism.

Variable fmt : Z -> string.
Variable drinks : list Drink.
Variables FH SH w : Q.
Variable g : Gender.

Local Abbreviation t0 := (startTimeOf drinks).
Local Abbreviation N :=
  (fun k => currentNetSD (stateAfter fmt drinks FH SH w g k)).

(** The units after pass [k], from those before it: the drinks of the
    interval of the pass are added, then the burn of the pass is taken. *)
Lemma state_step (k : nat) :
  N (S k)
  = metabolize
      (addAll (N k)
         (filter (inInterval (t0 + Z.of_nat k * stepMs)
                             (t0 + Z.of_nat k * stepMs + stepMs))
                 (sortDrinks drinks)))
      (burnAmountAt FH SH (Z.of_nat k * stepMs)).
Proof.
  destruct (state_clock fmt drinks FH SH w g k) as (Hc & Ht & _).
  unfold stateAfter in *. rewrite Nat.iter_succ.
  cbn [advance currentNetSD]. unfold stepNetSD. now rewrite Hc, Ht.
Qed.


End Metabolism.



(** ** C1: how often a drink is counted *)

Lemma intervals_count (t0 : Z) (d : Drink) (n : nat) :
  List.length
    (filter (fun i => inInterval (t0 + Z.of_nat i * stepMs)
                                 (t0 + Z.of_nat i * stepMs + stepMs) d)
            (seq 0 n))
  = if (t0 <? timestamp d) && (timestamp d <=? t0 + Z.of_nat n * stepMs)
    then 1%nat else 0%nat.
Proof.
  induction n as [|n IH].
  - cbn [seq filter List.length].
    destruct (t0 <? timestamp d) eqn:E1; [|reflexivity].
    destruct (timestamp d <=? t0 + Z.of_nat 0 * stepMs) eqn:E2;
      [|reflexivity].
    apply Z.ltb_lt in E1. apply Z.leb_le in E2. lia.
  - rewrite seq_S, filter_app, length_app, IH. cbn [Nat.add filter].
    destruct (inInterval _ _ d) eqn:Ei;
      [apply inInterval_true in Ei
      |apply not_true_iff_false in Ei; rewrite inInterval_true in Ei];
      destruct (t0 <? timestamp d) eqn:E1;
      destruct (timestamp d <=? t0 + Z.of_nat n * stepMs) eqn:E2;
      destruct (timestamp d <=? t0 + Z.of_nat (S n) * stepMs) eqn:E3;
      cbn [andb List.length]; try reflexivity;
      repeat match goal with
             | H : (_ <? _) = true |- _ => apply Z.ltb_lt in H
             | H : (_ <? _) = false |- _ => apply Z.ltb_ge in H
             | H : (_ <=? _) = true |- _ => apply Z.leb_le in H
             | H : (_ <=? _) = false |- _ => apply Z.leb_gt in H
             end; unfold stepMs in *; lia.
Qed.

(** A drink at [t0] or between one second and 24 hours after [t0] passes
    one filter; a drink less than a second after [t0], but not at [t0],
    passes two: the initial one and the interval of the first pass. *)
Lemma timesCounted_spec (t0 : Z) (d : Drink) :
  t0 <= timestamp d ->
  timesCounted t0 d
  = ((if (timestamp d <? t0 + 1000)%Z then 1 else 0)
     + (if ((t0 <? timestamp d) && (timestamp d <=? t0 + dayMs))%Z
        then 1 else 0))%nat.
Proof.
  intros Hd. unfold timesCounted. rewrite intervals_count, stepMs_day.
  f_equal. unfold isInitial.
  destruct (timestamp d <? t0 + 1000) eqn:E.
  - apply Z.ltb_lt in E. replace (_ <? _) with true; [reflexivity|].
    symmetry. apply Z.ltb_lt. lia.
  - apply Z.ltb_ge in E. replace (_ <? _) with false; [reflexivity|].
    symmetry. apply Z.ltb_ge. lia.
Qed.

(** C1, at an input where it fails.  Two pints logged half a second apart,
    default profile.  The second pint passes the initial filter and the
    interval filter of the first pass: the units before the loop are those
    of two pints, and after the first pass those of three pints less the
    burn of one step, which is what sample 1 shows. *)
Theorem near_start_drink_counted_twice :
  let drinks := [pint; pintHalfSecondLater] in
  let t0 := startTimeOf drinks in
  let N := fun k => currentNetSD (stateAfter utcLabel drinks 2 1 80 male k) in
  let one := calculateStandardDrinks 570 5 in
  t0 = timestamp pint /\
  timestamp pintHalfSecondLater = t0 + 500 /\
  isInitial t0 pintHalfSecondLater = true /\
  inInterval t0 (t0 + stepMs) pintHalfSecondLater = true /\
  timesCounted t0 pintHalfSecondLater = 2%nat /\
  timesCounted t0 pint = 1%nat /\
  (N 0%nat == 2 * one)%Q /\
  (N 1%nat == 3 * one - 2 * (5 / 60))%Q /\
  (bacAt (points utcLabel drinks 2 1 80 male) 1
   == toBAC 80 male (3 * one - 2 * (5 / 60)))%Q.
Proof.
  vm_compute. repeat split; reflexivity.
Qed.

(** * Further properties of the code *)

(** ** The session header ([sessionInfo]) *)

Lemma fold_min_spec (xs : list Z) :
  forall x0,
    (fold_left Z.min xs x0 = x0 \/ In (fold_left Z.min xs x0) xs) /\
    fold_left Z.min xs x0 <= x0 /\
    (forall y, In y xs -> fold_left Z.min xs x0 <= y).
Proof.
  induction xs as [|x xs IH]; intros x0; cbn [fold_left].
  - split; [now left|]. split; [lia|]. intros y [].
  - destruct (IH (Z.min x0 x)) as (Hin & Hle & Hall).
    split; [|split].
    + destruct Hin as [Heq|Hin].
      * rewrite Heq. destruct (Z.min_spec x0 x) as [[_ ->]|[_ ->]];
          [now left|right; now left].
      * right. now right.
    + lia.
    + intros y [<-|Hy]; [lia|now apply Hall].
Qed.

Lemma minTimestamp_spec (first : Drink) (others : list Drink) :
  (exists d, In d (first :: others) /\
             timestamp d = App.minTimestamp first others) /\
  (forall d, In d (first :: others) ->
             App.minTimestamp first others <= timestamp d).
Proof.
  unfold App.minTimestamp.
  destruct (fold_min_spec (map timestamp others) (timestamp first))
    as (Hin & Hle & Hall).
  split.
  - destruct Hin as [Heq|Hin].
    + exists first. split; [now left|now rewrite Heq].
    + apply in_map_iff in Hin. destruct Hin as (d & Hd & Hin).
      exists d. split; [now right|exact Hd].
  - intros d [<-|Hd]; [exact Hle|]. apply Hall. now apply in_map.
Qed.

Lemma sessionInfo_startTime (drinks : list Drink) (now : Z)
    (info : App.SessionInfo) :
  App.sessionInfo drinks now = Some info ->
  App.startTime info = startTimeOf drinks.
Proof.
  intros Hinfo. destruct drinks as [|first others]; [discriminate|].
  cbn [App.sessionInfo] in Hinfo. injection Hinfo as <-.
  cbn [App.startTime].
  destruct (minTimestamp_spec first others) as [(d & Hd & Ed) Hmin].
  destruct (startTimeOf_min (first :: others)) as [(d' & Hd' & Ed') Hmin'];
    [easy|].
  pose proof (Hmin d' Hd'). pose proof (Hmin' d Hd). lia.
Qed.

(** The session header and the chart start from the same instant: the
    [startTime] of [sessionInfo], a [Math.min] over the list, is the
    timestamp of the first sorted drink that [points] starts from; and
    [sessionInfo] is [null] exactly on the empty list. *)
Theorem sessionInfo_starts_with_chart (drinks : list Drink) (now : Z) :
  (App.sessionInfo drinks now = None <-> drinks = []) /\
  (forall info, App.sessionInfo drinks now = Some info ->
     App.startTime info = startTimeOf drinks).
Proof.
  split.
  - destruct drinks; cbn; split; congruence.
  - intros info. apply sessionInfo_startTime.
Qed.

Lemma sessionInfo_starts_with_chart_witness :
  App.startTime (App.mkSessionInfo 0 0 eightPm)
  = startTimeOf [pintHalfSecondLater; nipLight; pintNextDay].
Proof.
  destruct (sessionInfo_starts_with_chart
              [pintHalfSecondLater; nipLight; pintNextDay] eightPm)
    as [_ H].
  apply H. reflexivity.
Defined.


(** The elapsed time shown, [hours] and [mins], is the time from the
    earliest drink to the clock, floored at zero and cut to whole minutes:
    [mins] is below 60, and the elapsed time lies in the minute that
    [hours] and [mins] name.  A clock before the earliest drink shows
    [0h 0m]. *)
Theorem sessionInfo_elapsed (drinks : list Drink) (now : Z)
    (info : App.SessionInfo) :
  App.sessionInfo drinks now = Some info ->
  let elapsed := Z.max 0 (now - startTimeOf drinks) in
  0 <= App.hours info /\
  0 <= App.mins info < 60 /\
  App.hours info * 3600000 + App.mins info * 60000 <= elapsed
    < App.hours info * 3600000 + App.mins info * 60000 + 60000 /\
  (now <= startTimeOf drinks -> App.hours info = 0 /\ App.mins info = 0).
Proof.
  intros Hinfo elapsed.
  pose proof (sessionInfo_startTime drinks now info Hinfo) as Hs.
  destruct drinks as [|first others]; [discriminate|].
  cbn [App.sessionInfo] in Hinfo. injection Hinfo as <-.
  cbn [App.startTime App.hours App.mins] in *. rewrite Hs. fold elapsed.
  assert (He : 0 <= elapsed) by (unfold elapsed; lia).
  change (1000 * 60 * 60) with 3600000. change (1000 * 60) with 60000.
  rewrite Z.rem_mod_nonneg by lia.
  pose proof (Z.div_mod elapsed 3600000 ltac:(lia)) as H1.
  pose proof (Z.mod_pos_bound elapsed 3600000 ltac:(lia)) as H2.
  pose proof (Z.div_mod (elapsed mod 3600000) 60000 ltac:(lia)) as H3.
  pose proof (Z.mod_pos_bound (elapsed mod 3600000) 60000 ltac:(lia)) as H4.
  assert (H5 : 0 <= elapsed / 3600000) by (apply Z.div_pos; lia).
  assert (H6 : 0 <= elapsed mod 3600000 / 60000) by (apply Z.div_pos; lia).
  assert (H7 : elapsed mod 3600000 / 60000 < 60)
    by (apply Z.div_lt_upper_bound; lia).
  repeat split; lia.
Qed.

Lemma sessionInfo_elapsed_witness :
  App.hours (App.mkSessionInfo 1 5 eightPm) * 3600000
  + App.mins (App.mkSessionInfo 1 5 eightPm) * 60000
  <= Z.max 0 (eightPm + 3959999 - startTimeOf [pintHalfSecondLater; pint]).
Proof.
  destruct (sessionInfo_elapsed [pintHalfSecondLater; pint]
              (eightPm + 3959999) (App.mkSessionInfo 1 5 eightPm))
    as (_ & _ & H & _).
  - reflexivity.
  - apply H.
Defined.

(** ** Editing the session ([addDrink], [removeDrink], [updateDrinkTime]) *)

Lemma totalStdDrinks_addAll (drinks : list Drink) :
  App.totalStdDrinks drinks = addAll 0 drinks.
Proof. reflexivity. Qed.

Lemma totalStdDrinks_cons (d : Drink) (drinks : list Drink) :
  (App.totalStdDrinks (d :: drinks)
   == standardDrinks d + App.totalStdDrinks drinks)%Q.
Proof.
  change (addAll (0 + standardDrinks d) drinks
          == standardDrinks d + addAll 0 drinks)%Q.
  rewrite (addAll_plus drinks (0 + standardDrinks d)). ring.
Qed.

Lemma totalStdDrinks_split (p : Drink -> bool) (drinks : list Drink) :
  (App.totalStdDrinks drinks
   == App.totalStdDrinks (filter p drinks)
      + App.totalStdDrinks (filter (fun d => negb (p d)) drinks))%Q.
Proof.
  induction drinks as [|d l IH]; [reflexivity|].
  cbn [filter]. destruct (p d); cbn [negb];
    rewrite !totalStdDrinks_cons, IH; ring.
Qed.

(** The total in the header follows the edits: adding a drink adds the
    units of its volume and percentage, changing a time changes nothing,
    and a confirmed removal takes off the units of the drinks that carry
    the id. *)
Theorem total_follows_edits (prev : list Drink) (theId : string) :
  (forall newId now name volumeMl abv,
     (App.totalStdDrinks (App.addDrink newId now name volumeMl abv prev)
      == App.totalStdDrinks prev + calculateStandardDrinks volumeMl abv)%Q) /\
  (forall newTimestamp,
     App.totalStdDrinks (App.updateDrinkTime theId newTimestamp prev)
     = App.totalStdDrinks prev) /\
  (App.totalStdDrinks prev
   == App.totalStdDrinks (App.removeDrink true theId prev)
      + App.totalStdDrinks (filter (fun d => String.eqb (id d) theId) prev))%Q.
Proof.
  split; [|split].
  - intros newId now name volumeMl abv. unfold App.addDrink.
    rewrite totalStdDrinks_cons. unfold App.newDrink, calculateStandardDrinks.
    cbn [standardDrinks]. ring.
  - intros newTimestamp. rewrite !totalStdDrinks_addAll.
    unfold App.updateDrinkTime. apply addAll_ext.
    rewrite Forall_forall. intros d _. now destruct (String.eqb (id d) theId).
  - unfold App.removeDrink.
    rewrite (totalStdDrinks_split (fun d => String.eqb (id d) theId) prev)
      at 1.
    ring.
Qed.

Lemma filter_all {A : Type} (p : A -> bool) (l : list A) :
  (forall x, In x l -> p x = true) -> filter p l = l.
Proof.
  induction l as [|x l IH]; intros H; cbn [filter]; [reflexivity|].
  rewrite (H x) by now left. f_equal. apply IH. intros y Hy. apply H.
  now right.
Qed.

Lemma filter_none {A : Type} (p : A -> bool) (l : list A) :
  (forall x, In x l -> p x = false) -> filter p l = [].
Proof.
  induction l as [|x l IH]; intros H; cbn [filter]; [reflexivity|].
  rewrite (H x) by now left. apply IH. intros y Hy. apply H. now right.
Qed.

Lemma removeDrink_unique (theId : string) (prev : list Drink) (d : Drink) :
  NoDup (map id prev) -> In d prev -> id d = theId ->
  Permutation prev (d :: App.removeDrink true theId prev).
Proof.
  unfold App.removeDrink. induction prev as [|x l IH]; intros Hnd Hd Hid.
  - destruct Hd.
  - cbn [map] in Hnd. apply NoDup_cons_iff in Hnd. destruct Hnd as [Hx Hnd].
    cbn [filter]. destruct Hd as [->|Hd].
    + rewrite Hid, String.eqb_refl. cbn [negb].
      rewrite filter_all; [reflexivity|].
      intros y Hy. apply negb_true_iff, String.eqb_neq. intros Ey.
      apply Hx. rewrite Hid, <- Ey. now apply in_map.
    + assert (Hne : id x <> theId).
      { intros Ex. apply Hx. rewrite Ex, <- Hid. now apply in_map. }
      apply String.eqb_neq in Hne. rewrite Hne. cbn [negb].
      rewrite perm_swap. constructor. now apply IH.
Qed.

(** A confirmed [removeDrink] keeps, in their order, exactly the drinks
    with another id; a declined one keeps everything.  The ids are not
    checked for uniqueness: every drink carrying the id goes.  When the ids
    of the list are distinct, that is the one drink asked for. *)
Theorem removeDrink_removes_the_id (theId : string) (prev : list Drink) :
  App.removeDrink false theId prev = prev /\
  (forall d, In d (App.removeDrink true theId prev)
             <-> In d prev /\ id d <> theId) /\
  App.removeDrink true theId prev
  = filter (fun d => negb (String.eqb (id d) theId)) prev /\
  ((forall d, In d prev -> id d <> theId) ->
   App.removeDrink true theId prev = prev) /\
  (forall d, NoDup (map id prev) -> In d prev -> id d = theId ->
     Permutation prev (d :: App.removeDrink true theId prev) /\
     S (List.length (App.removeDrink true theId prev)) = List.length prev).
Proof.
  split; [reflexivity|]. split; [|split; [reflexivity|split]].
  - intros d. unfold App.removeDrink. rewrite filter_In, negb_true_iff.
    now rewrite String.eqb_neq.
  - intros H. unfold App.removeDrink. apply filter_all.
    intros d Hd. apply negb_true_iff, String.eqb_neq, H, Hd.
  - intros d Hnd Hd Hid.
    pose proof (removeDrink_unique theId prev d Hnd Hd Hid) as Hp.
    split; [exact Hp|]. apply Permutation_length in Hp. now rewrite Hp.
Qed.

Lemma removeDrink_removes_the_id_witness :
  S (List.length
       (App.removeDrink true "b"
          [nipLight; App.newDrink "b" eightPm "Jug" 1140 5; pint]))
  = 3%nat.
Proof.
  destruct (removeDrink_removes_the_id "b"
              [nipLight; App.newDrink "b" eightPm "Jug" 1140 5; pint])
    as (_ & _ & _ & _ & H).
  apply (H (App.newDrink "b" eightPm "Jug" 1140 5)).
  - repeat constructor; cbn; intuition discriminate.
  - right. left. reflexivity.
  - reflexivity.
Defined.

(** [updateDrinkTime] changes timestamps only, and only those of the drinks
    with the id: the list keeps its length, ids and units in place, a drink
    with the id gets the new timestamp and any other keeps its own, and
    well-formed drinks stay so.  Editing the same drink again overrides the
    first edit, removing it afterwards is the same as removing it at once,
    and an id that no drink carries changes nothing. *)
Theorem updateDrinkTime_changes_only_time (theId : string) (newTimestamp : Z)
    (prev : list Drink) :
  let next := App.updateDrinkTime theId newTimestamp prev in
  List.length next = List.length prev /\
  map id next = map id prev /\
  map standardDrinks next = map standardDrinks prev /\
  map timestamp next
  = map (fun d => if String.eqb (id d) theId then newTimestamp
                  else timestamp d) prev /\
  (forall again, App.updateDrinkTime theId again next
                 = App.updateDrinkTime theId again prev) /\
  App.removeDrink true theId next = App.removeDrink true theId prev /\
  ((forall d, In d prev -> id d <> theId) -> next = prev) /\
  (Forall wellFormed prev -> Forall wellFormed next).
Proof.
  cbv zeta. unfold App.updateDrinkTime.
  split; [apply length_map|].
  split; [|split; [|split; [|split; [|split; [|split]]]]].
  - rewrite map_map. apply map_ext. intros d.
    now destruct (String.eqb (id d) theId).
  - rewrite map_map. apply map_ext. intros d.
    now destruct (String.eqb (id d) theId).
  - rewrite map_map. apply map_ext. intros d.
    now destruct (String.eqb (id d) theId).
  - intros again. rewrite map_map. apply map_ext. intros d.
    destruct (String.eqb (id d) theId) eqn:E; cbn [id]; now rewrite E.
  - unfold App.removeDrink. induction prev as [|d l IH]; [reflexivity|].
    cbn [map filter]. rewrite IH.
    destruct (String.eqb (id d) theId) eqn:E; cbn [id]; now rewrite E.
  - intros Habsent. induction prev as [|d l IH]; [reflexivity|].
    cbn [map]. rewrite IH by (intros x Hx; apply Habsent; now right).
    replace (String.eqb (id d) theId) with false; [reflexivity|].
    symmetry. apply String.eqb_neq, Habsent. now left.
  - intros Hwf. rewrite Forall_forall in *. intros d Hd.
    apply in_map_iff in Hd. destruct Hd as (x & <- & Hx).
    specialize (Hwf x Hx). now destruct (String.eqb (id x) theId).
Qed.

Lemma updateDrinkTime_changes_only_time_witness :
  Forall wellFormed (App.updateDrinkTime "Pint" (eightPm - 60000)
                       [nipLight; pint]).
Proof.
  apply (updateDrinkTime_changes_only_time "Pint" (eightPm - 60000)
           [nipLight; pint]).
  repeat constructor; vm_compute; try reflexivity; discriminate.
Defined.

Lemma perform_wellFormed (a : App.Action) (prev : list Drink) :
  App.inRange a -> Forall wellFormed prev ->
  Forall wellFormed (App.perform a prev).
Proof.
  intros Ha Hprev.
  destruct a as [newId now nm v p|c i|i t|c]; cbn [App.perform].
  - constructor; [|exact Hprev]. destruct Ha as (Hv & Hp0 & Hp1).
    unfold wellFormed, App.newDrink, calculateStandardDrinks.
    cbn [volumeMl abv standardDrinks]. repeat split; try assumption;
      reflexivity.
  - unfold App.removeDrink. destruct c; [|exact Hprev].
    rewrite Forall_forall in *. intros d Hd. apply filter_In in Hd.
    now apply Hprev.
  - unfold App.updateDrinkTime. rewrite Forall_forall in *. intros d Hd.
    apply in_map_iff in Hd. destruct Hd as (x & <- & Hx).
    specialize (Hprev x Hx). now destruct (String.eqb (id x) i).
  - unfold App.clearSession. destruct c; [constructor|exact Hprev].
Qed.

Lemma points_bac_nonneg (fmt : Z -> string) (drinks : list Drink)
    (FH SH w : Q) (g : Gender) (p : Point.t) :
  Forall wellFormed drinks ->
  In p (points fmt drinks FH SH w g) -> (0 <= Point.bac p)%Q.
Proof.
  intros Hwf Hp. destruct drinks as [|a l] eqn:E; [destruct Hp|].
  rewrite <- E in *. assert (Hne : drinks <> []) by now rewrite E.
  destruct (In_nth _ _ noPoint Hp) as (i & Hi & <-).
  fold (at_ (points fmt drinks FH SH w g) i).
  rewrite points_nth by assumption. cbn [pointOf Point.bac].
  apply toBAC_nonneg, state_nonneg.
  eapply Forall_impl; [|exact Hwf]. apply wellFormed_nonneg.
Qed.

(** Whatever sequence of additions (with a positive volume and a percentage
    in [[0, 100]]), removals, time changes and clearings built the session,
    each of its drinks carries the units of its own volume and percentage,
    the total in the header is not negative, and no sample of the curve has
    a negative BAC, for any profile. *)
Theorem session_stays_well_formed (actions : list App.Action) :
  Forall App.inRange actions ->
  Forall wellFormed (App.session actions) /\
  (0 <= App.totalStdDrinks (App.session actions))%Q /\
  (forall fmt FH SH w g p,
     In p (points fmt (App.session actions) FH SH w g) ->
     (0 <= Point.bac p)%Q).
Proof.
  intros Hact.
  assert (Hwf : Forall wellFormed (App.session actions)).
  { unfold App.session.
    assert (Hgen : forall l, Forall wellFormed l ->
              Forall wellFormed
                (fold_left (fun drinks a => App.perform a drinks) actions l)).
    { induction Hact as [|a actions Ha _ IH]; intros l Hl; cbn [fold_left].
      - exact Hl.
      - apply IH. now apply perform_wellFormed. }
    apply Hgen. constructor. }
  split; [exact Hwf|]. split.
  - rewrite totalStdDrinks_addAll. apply addAll_nonneg; [|lra].
    eapply Forall_impl; [|exact Hwf]. apply wellFormed_nonneg.
  - intros fmt FH SH w g p. now apply points_bac_nonneg.
Qed.

Lemma session_stays_well_formed_witness :
  Forall wellFormed
    (App.session [App.Add "a" eightPm "Pint" 570 5;
                  App.Add "b" (eightPm + 1) "Nip" 30 40;
                  App.UpdateTime "a" (eightPm - 1800000);
                  App.Remove true "b"]).
Proof.
  apply session_stays_well_formed.
  repeat constructor; vm_compute; try reflexivity; discriminate.
Defined.

(** ** The AI input *)

Lemma fold_addParsed (parsed : list (string * Z * SmartInput.Parsed)) :
  forall prev,
    fold_left SmartInput.addParsed parsed prev
    = rev (map (fun d : string * Z * SmartInput.Parsed =>
                  App.newDrink (fst (fst d)) (snd (fst d))
                               (SmartInput.name (snd d))
                               (SmartInput.volumeMl (snd d))
                               (SmartInput.abv (snd d)))
               parsed) ++ prev.
Proof.
  induction parsed as [|d parsed IH]; intros prev; cbn [fold_left map rev].
  - reflexivity.
  - rewrite IH, <- app_assoc. f_equal.
    destruct d as [[newId now] p]. reflexivity.
Qed.

(** [handleSubmit] touches the session only when the request resolved to a
    non-empty list: a rejected request and an empty list leave the drinks
    as they were and set an error message.  Otherwise every recognised
    drink is added, the last one of the list ending up first, in front of
    the drinks already there; the error is cleared and so is the input
    box. *)
Theorem handleSubmit_adds_all_or_nothing (s : SmartInput.State)
    (parsed : list (string * Z * SmartInput.Parsed)) :
  let toDrink := fun d : string * Z * SmartInput.Parsed =>
    App.newDrink (fst (fst d)) (snd (fst d)) (SmartInput.name (snd d))
                 (SmartInput.volumeMl (snd d)) (SmartInput.abv (snd d)) in
  SmartInput.drinks (SmartInput.handleSubmit SmartInput.Rejected s)
  = SmartInput.drinks s /\
  SmartInput.error (SmartInput.handleSubmit SmartInput.Rejected s) <> None /\
  SmartInput.drinks (SmartInput.handleSubmit (SmartInput.Resolved parsed) s)
  = rev (map toDrink parsed) ++ SmartInput.drinks s /\
  (SmartInput.error (SmartInput.handleSubmit (SmartInput.Resolved parsed) s)
   = None <-> parsed <> []) /\
  (parsed <> [] ->
   SmartInput.input (SmartInput.handleSubmit (SmartInput.Resolved parsed) s)
   = EmptyString) /\
  (parsed = [] ->
   SmartInput.handleSubmit (SmartInput.Resolved parsed) s
   = SmartInput.mkState
       (SmartInput.drinks s)
       (Some "Could not identify any drinks. Try being more specific."%string)
       (SmartInput.input s)).
Proof.
  cbv zeta. split; [reflexivity|]. split; [discriminate|].
  destruct parsed as [|d parsed].
  - cbn. repeat split; try reflexivity; try discriminate; try easy.
  - cbn [SmartInput.handleSubmit List.length Nat.eqb SmartInput.drinks
         SmartInput.error SmartInput.input].
    repeat split; try reflexivity; try discriminate.
    apply fold_addParsed.
Qed.

Lemma handleSubmit_adds_all_or_nothing_witness :
  SmartInput.input
    (SmartInput.handleSubmit
       (SmartInput.Resolved
          [("a"%string, eightPm, SmartInput.mkParsed "Pint" 570 5);
           ("b"%string, eightPm + 1, SmartInput.mkParsed "Nip" 30 40)])
       (SmartInput.mkState [] None "a pint and a shot"))
  = EmptyString.
Proof.
  apply handleSubmit_adds_all_or_nothing. discriminate.
Defined.

(** ** More on the simulation *)

Lemma metabolize_le (n burn : Q) :
  (0 <= burn)%Q -> (metabolize n burn <= n)%Q.
Proof.
  intros Hb. unfold metabolize. destruct (Qltb 0 n) eqn:En; [|lra].
  apply Qltb_true in En. destruct (Qltb (n - burn) 0); lra.
Qed.

Lemma metabolize_zero (n burn : Q) :
  (burn == 0)%Q -> (metabolize n burn == n)%Q.
Proof.
  intros Hb. unfold metabolize. destruct (Qltb 0 n) eqn:En; [|reflexivity].
  apply Qltb_true in En. destruct (Qltb (n - burn) 0) eqn:E.
  - apply Qltb_true in E. lra.
  - lra.
Qed.

Lemma toBAC_le (w : Q) (g : Gender) (n m : Q) :
  (n <= m)%Q -> (toBAC w g n <= toBAC w g m)%Q.
Proof.
  intros Hnm. unfold toBAC, Qdiv. apply Qmult_le_compat_r; [exact Hnm|].
  apply Qlt_le_weak, Qinv_lt_0_compat, divisor_pos.
Qed.

Lemma burnAmountAt_nonneg (FH SH : Q) (t : Z) :
  (0 <= FH)%Q -> (0 <= SH)%Q -> (0 <= burnAmountAt FH SH t)%Q.
Proof.
  intros HF HS. unfold burnAmountAt, stepBurnFirstHour, stepBurnSubsequent.
  assert (H : forall x : Q, (x / 60 * 5 == x * (1 # 12))%Q)
    by (intros x; field).
  destruct (t <? hourMs); rewrite H; lra.
Qed.

Lemma burnAmountAt_zero (FH SH : Q) (t : Z) :
  (FH == 0)%Q -> (SH == 0)%Q -> (burnAmountAt FH SH t == 0)%Q.
Proof.
  intros HF HS. unfold burnAmountAt, stepBurnFirstHour, stepBurnSubsequent.
  destruct (t <? hourMs); [rewrite HF|rewrite HS]; reflexivity.
Qed.

Section After.

Variable fmt : Z -> string.
Variable drinks : list Drink.
Variables FH SH w : Q.
Variable g : Gender.

Local Abbreviation pts := (points fmt drinks FH SH w g).
Local Abbreviation t0 := (startTimeOf drinks).
Local Abbreviation tl := (lastDrinkTimeOf drinks).
Local Abbreviation N k :=
  (currentNetSD (stateAfter fmt drinks FH SH w g k)).

(** A pass that starts at or after the last drink adds nothing. *)
Lemma no_drinks_after_last (k : nat) :
  drinks <> [] -> tl <= t0 + Z.of_nat k * stepMs ->
  filter (inInterval (t0 + Z.of_nat k * stepMs)
                     (t0 + Z.of_nat k * stepMs + stepMs))
         (sortDrinks drinks) = [].
Proof.
  intros Hne Hk. apply filter_none. intros d Hd.
  apply (Permutation_in _ (sortDrinks_perm drinks)) in Hd.
  destruct (lastDrinkTimeOf_max drinks Hne) as [_ Hmax].
  specialize (Hmax d Hd). apply not_true_iff_false.
  rewrite inInterval_true. lia.
Qed.

Lemma units_decay (k : nat) :
  drinks <> [] -> (0 <= FH)%Q -> (0 <= SH)%Q ->
  tl <= t0 + Z.of_nat k * stepMs -> (N (S k) <= N k)%Q.
Proof.
  intros Hne HF HS Hk. rewrite state_step.
  rewrite (no_drinks_after_last k Hne Hk). cbn [addAll fold_left].
  apply metabolize_le, burnAmountAt_nonneg; assumption.
Qed.

Lemma units_decay_from (i : nat) :
  drinks <> [] -> (0 <= FH)%Q -> (0 <= SH)%Q ->
  tl <= t0 + Z.of_nat i * stepMs ->
  forall j, (i <= j)%nat -> (N j <= N i)%Q.
Proof.
  intros Hne HF HS Hi j Hij. induction Hij as [|j Hij IH]; [lra|].
  eapply Qle_trans; [|exact IH].
  apply units_decay; try assumption. unfold stepMs in *. lia.
Qed.

Lemma sample_time (i : nat) :
  drinks <> [] -> (i < List.length pts)%nat ->
  Point.time (at_ pts i) = t0 + Z.of_nat i * stepMs.
Proof.
  intros Hne Hi. rewrite points_nth by assumption. cbn [pointOf Point.time].
  now destruct (state_clock fmt drinks FH SH w g i) as (-> & _).
Qed.

Lemma sample_bac (i : nat) :
  drinks <> [] -> (i < List.length pts)%nat ->
  bacAt pts i = toBAC w g (N i).
Proof.
  intros Hne Hi. unfold bacAt. now rewrite points_nth.
Qed.

(** The last sample of a run that stopped before the ceiling has a BAC of
    at most 0.001. *)
Lemma early_end_bac :
  drinks <> [] -> (List.length pts < 289)%nat ->
  (bacAt pts (List.length pts - 1) <= 0.001)%Q.
Proof.
  intros Hne Hlt.
  pose proof (points_length fmt drinks FH SH w g Hne) as Hlen.
  destruct (points_last_break fmt drinks FH SH w g Hne) as [H|H]; [lia|].
  rewrite breaks_state in H. apply andb_true_iff in H. destruct H as [_ H].
  apply Qleb_true in H. rewrite sample_bac by (try assumption; lia).
  replace (List.length pts - 1)%nat with (S (List.length pts - 2)) by lia.
  exact H.
Qed.

End After.

(** With burn rates that are not negative, the curve never rises again from
    a sample that is at or after the last drink: every later sample has at
    most its BAC.  So the peak the summary pass picks is less than one step
    (5 minutes) after the last drink. *)
Theorem decay_after_last_drink (fmt : Z -> string) (drinks : list Drink)
    (FH SH w : Q) (g : Gender) :
  drinks <> [] -> (0 <= FH)%Q -> (0 <= SH)%Q ->
  let pts := points fmt drinks FH SH w g in
  (forall i j, (i <= j < List.length pts)%nat ->
     lastDrinkTimeOf drinks <= Point.time (at_ pts i) ->
     (bacAt pts j <= bacAt pts i)%Q) /\
  Point.time (at_ pts (findPeakIndex pts)) < lastDrinkTimeOf drinks + stepMs.
Proof.
  intros Hne HF HS pts.
  assert (Hdecay : forall i j, (i <= j < List.length pts)%nat ->
            lastDrinkTimeOf drinks <= Point.time (at_ pts i) ->
            (bacAt pts j <= bacAt pts i)%Q).
  { intros i j Hij Hi. unfold pts in *.
    rewrite sample_time in Hi by (try assumption; lia).
    rewrite !sample_bac by (try assumption; lia).
    apply toBAC_le. now apply units_decay_from. }
  split; [exact Hdecay|].
  assert (Hpts : pts <> []).
  { pose proof (points_length fmt drinks FH SH w g Hne) as Hlen.
    fold pts in Hlen. destruct pts; [cbn in Hlen; lia|easy]. }
  destruct (findPeakIndex_spec pts Hpts) as (Hk & _ & Hfirst).
  destruct (findPeakIndex pts) as [|p] eqn:Ep.
  - unfold pts. rewrite sample_time by (try assumption; fold pts; lia).
    destruct (startTimeOf_min drinks Hne) as [(d & Hd & <-) _].
    destruct (lastDrinkTimeOf_max drinks Hne) as [_ Hmax].
    specialize (Hmax d Hd). unfold stepMs. lia.
  - destruct (Z_lt_le_dec (Point.time (at_ pts p)) (lastDrinkTimeOf drinks))
      as [Hlt|Hge].
    + unfold pts in *. rewrite sample_time in * by (try assumption; lia).
      unfold stepMs in *. lia.
    + specialize (Hdecay p (S p) ltac:(lia) Hge).
      specialize (Hfirst p ltac:(lia)). lra.
Qed.

Lemma decay_after_last_drink_witness :
  Point.time (at_ (points utcLabel [pint; pintHalfSecondLater] 2 1 80 male)
                  (findPeakIndex
                     (points utcLabel [pint; pintHalfSecondLater] 2 1 80 male)))
  < lastDrinkTimeOf [pint; pintHalfSecondLater] + stepMs.
Proof.
  apply (decay_after_last_drink utcLabel [pint; pintHalfSecondLater] 2 1 80 male).
  - discriminate.
  - discriminate.
  - discriminate.
Defined.

(** The summary is a projection only at the ceiling: when the run stopped
    before 289 samples there is a summary and it is not marked
    [projected]; when it is [over], the crossing point it reports is a
    sample with a BAC of at most 0.05. *)
Theorem projected_only_at_ceiling (fmt : Z -> string) (drinks : list Drink)
    (FH SH w : Q) (g : Gender) :
  drinks <> [] ->
  let pts := points fmt drinks FH SH w g in
  (List.length pts < 289)%nat ->
  exists info,
    soberTimeInfo pts = Some info /\
    Info.projected info = None /\
    Info.isProjected info = false /\
    (Info.status info = Info.over ->
     exists i, (findPeakIndex pts <= i < List.length pts)%nat /\
               (bacAt pts i <= 0.05)%Q /\
               Info.time info = Some (Point.time (at_ pts i)) /\
               Info.label info = Some (Point.label (at_ pts i))).
Proof.
  intros Hne pts Hlt.
  pose proof (points_length fmt drinks FH SH w g Hne) as Hlen. fold pts in Hlen.
  pose proof (early_end_bac fmt drinks FH SH w g Hne Hlt) as Hlast.
  fold pts in Hlast.
  assert (Hpts : pts <> []) by (destruct pts; [cbn in Hlen; lia|easy]).
  destruct (findPeakIndex_spec pts Hpts) as (Hk & _ & _).
  unfold soberTimeInfo.
  replace (List.length pts =? 0)%nat with false
    by (symmetry; apply Nat.eqb_neq; lia).
  destruct (Qltb (Point.bac (at_ pts (findPeakIndex pts))) 0.05).
  - eexists. repeat split. discriminate.
  - destruct (find _ _) as [i|] eqn:Ef.
    + apply find_seq_some in Ef. destruct Ef as (Hi & Hb & _).
      apply Qleb_true in Hb.
      eexists. repeat split. intros _. exists i. repeat split; try lia.
      exact Hb.
    + exfalso. rewrite find_seq_none in Ef.
      specialize (Ef (List.length pts - 1)%nat ltac:(lia)).
      apply Qleb_false in Ef. unfold bacAt in Hlast. lra.
Qed.

Lemma projected_only_at_ceiling_witness :
  exists info,
    soberTimeInfo (points utcLabel [nipLight] 2 1 80 male) = Some info /\
    Info.projected info = None /\
    Info.isProjected info = false /\
    (Info.status info = Info.over ->
     exists i,
       (findPeakIndex (points utcLabel [nipLight] 2 1 80 male) <= i
        < List.length (points utcLabel [nipLight] 2 1 80 male))%nat /\
       (bacAt (points utcLabel [nipLight] 2 1 80 male) i <= 0.05)%Q /\
       Info.time info
       = Some (Point.time (at_ (points utcLabel [nipLight] 2 1 80 male) i)) /\
       Info.label info
       = Some (Point.label (at_ (points utcLabel [nipLight] 2 1 80 male) i))).
Proof.
  apply (projected_only_at_ceiling utcLabel [nipLight] 2 1 80 male).
  - discriminate.
  - vm_compute. lia.
Defined.

Lemma isInitial_inInterval (t0 : Z) (d : Drink) :
  isInitial t0 d = inInterval (t0 - 1000) (t0 + 999) d.
Proof.
  destruct (isInitial t0 d) eqn:E1, (inInterval (t0 - 1000) (t0 + 999) d) eqn:E2;
    try reflexivity; exfalso.
  - apply isInitial_true in E1. apply not_true_iff_false in E2.
    rewrite inInterval_true in E2. lia.
  - apply inInterval_true in E2. apply not_true_iff_false in E1.
    rewrite isInitial_true in E1. lia.
Qed.

(** Units over three intervals, when on the list each drink is in the third
    as often as in the first two together. *)
Lemma unitsIn_join (a1 b1 a2 b2 a3 b3 : Z) (l : list Drink) :
  (forall d, In d l ->
     ((if inInterval a1 b1 d then 1 else 0)
      + (if inInterval a2 b2 d then 1 else 0)
      = (if inInterval a3 b3 d then 1 else 0))%nat) ->
  (unitsIn a1 b1 l + unitsIn a2 b2 l == unitsIn a3 b3 l)%Q.
Proof.
  induction l as [|x l IH]; intros H.
  - reflexivity.
  - rewrite !unitsIn_cons, <- IH by (intros d Hd; apply H; now right).
    specialize (H x ltac:(now left)).
    destruct (inInterval a1 b1 x), (inInterval a2 b2 x), (inInterval a3 b3 x);
      try discriminate; ring.
Qed.

Section ZeroBurn.

Variable fmt : Z -> string.
Variable drinks : list Drink.
Variables FH SH w : Q.
Variable g : Gender.

Hypothesis FH_zero : (FH == 0)%Q.
Hypothesis SH_zero : (SH == 0)%Q.

Local Abbreviation t0 := (startTimeOf drinks).
Local Abbreviation N k :=
  (currentNetSD (stateAfter fmt drinks FH SH w g k)).

Lemma initial_units :
  N 0%nat = unitsIn (t0 - 1000) (t0 + 999) drinks.
Proof.
  unfold stateAfter, initialState. cbn [Nat.iter currentNetSD].
  rewrite (filter_ext (isInitial t0) (inInterval (t0 - 1000) (t0 + 999))
             (isInitial_inInterval t0)).
  apply addAll_perm, filter_perm, sortDrinks_perm.
Qed.

Lemma zero_burn_units (k : nat) :
  (N k == N 0%nat + unitsIn t0 (t0 + Z.of_nat k * stepMs) drinks)%Q.
Proof.
  induction k as [|k IH].
  - change (t0 + Z.of_nat 0 * stepMs) with (t0 + 0).
    rewrite Z.add_0_r, unitsIn_empty. ring.
  - rewrite state_step.
    rewrite metabolize_zero by (apply burnAmountAt_zero; assumption).
    rewrite addAll_plus, IH.
    fold (unitsIn (t0 + Z.of_nat k * stepMs)
                  (t0 + Z.of_nat k * stepMs + stepMs) (sortDrinks drinks)).
    rewrite (unitsIn_perm _ _ _ _ (sortDrinks_perm drinks)).
    rewrite (unitsIn_split t0 (t0 + Z.of_nat k * stepMs)
                           (t0 + Z.of_nat (S k) * stepMs))
      by (unfold stepMs; lia).
    replace (t0 + Z.of_nat (S k) * stepMs)
      with (t0 + Z.of_nat k * stepMs + stepMs) by lia.
    ring.
Qed.

End ZeroBurn.

Lemma startTimeOf_le (drinks : list Drink) (d : Drink) :
  In d drinks -> startTimeOf drinks <= timestamp d.
Proof.
  intros Hd. apply startTimeOf_min; [|exact Hd]. intros ->. destruct Hd.
Qed.

(** With both burn rates at zero nothing is metabolized, and the units
    after [k] passes account for the drinks as follows: those within a
    second of [t0], plus those after [t0] up to the clock [t0 + k * 5 min],
    so that a drink strictly between [t0] and [t0 + 1 s] is in both terms.
    When no drink is strictly between [t0] and [t0 + 1 s], the units are
    those of the drinks up to the clock, and once the clock has passed
    every drink they are the total of the header. *)
Theorem zero_burn_accounting (fmt : Z -> string) (drinks : list Drink)
    (FH SH w : Q) (g : Gender) (k : nat) :
  (FH == 0)%Q -> (SH == 0)%Q ->
  let t0 := startTimeOf drinks in
  let clock := t0 + Z.of_nat k * stepMs in
  let units := currentNetSD (stateAfter fmt drinks FH SH w g k) in
  (units == unitsIn (t0 - 1000) (t0 + 999) drinks + unitsIn t0 clock drinks)%Q /\
  ((forall d, In d drinks -> ~ t0 < timestamp d < t0 + 1000) ->
   (units == unitsIn (t0 - 1) clock drinks)%Q) /\
  ((forall d, In d drinks ->
      timestamp d = t0 \/ t0 + 1000 <= timestamp d <= clock) ->
   (units == App.totalStdDrinks drinks)%Q).
Proof.
  intros HF HS t0 clock units.
  assert (H1 : (units == unitsIn (t0 - 1000) (t0 + 999) drinks
                         + unitsIn t0 clock drinks)%Q).
  { unfold units, clock, t0.
    rewrite (zero_burn_units fmt drinks FH SH w g HF HS k).
    now rewrite initial_units. }
  assert (H2 : (forall d, In d drinks -> ~ t0 < timestamp d < t0 + 1000) ->
               (units == unitsIn (t0 - 1) clock drinks)%Q).
  { intros Hgap. rewrite H1. apply unitsIn_join. intros d Hd.
    pose proof (startTimeOf_le drinks d Hd) as Hmin. fold t0 in Hmin.
    specialize (Hgap d Hd).
    assert (Hc : t0 <= clock) by (unfold clock, stepMs; lia).
    destruct (inInterval (t0 - 1000) (t0 + 999) d) eqn:E1,
             (inInterval t0 clock d) eqn:E2,
             (inInterval (t0 - 1) clock d) eqn:E3;
      try reflexivity; exfalso;
      repeat match goal with
             | H : inInterval _ _ _ = true |- _ => apply inInterval_true in H
             | H : inInterval _ _ _ = false |- _ =>
                 apply not_true_iff_false in H; rewrite inInterval_true in H
             end; lia. }
  split; [exact H1|]. split; [exact H2|].
  intros Hall. rewrite H2.
  - unfold unitsIn. rewrite filter_all; [reflexivity|].
    intros d Hd. apply inInterval_true.
    pose proof (startTimeOf_le drinks d Hd) as Hmin. fold t0 in Hmin.
    assert (Hc : t0 <= clock) by (unfold clock, stepMs; lia).
    destruct (Hall d Hd); lia.
  - intros d Hd. destruct (Hall d Hd); lia.
Qed.

Lemma zero_burn_accounting_witness :
  (currentNetSD
     (stateAfter utcLabel [pintHalfSecondLater; pint] 0 0 80 male 3)
   == unitsIn (eightPm - 1000) (eightPm + 999) [pintHalfSecondLater; pint]
      + unitsIn eightPm (eightPm + 3 * stepMs) [pintHalfSecondLater; pint])%Q.
Proof.
  apply (zero_burn_accounting utcLabel [pintHalfSecondLater; pint] 0 0 80 male
           3); reflexivity.
Defined.

(** ** Drawing the curve *)

Lemma fold_Qmax_spec (xs : list Q) :
  forall x0,
    (x0 <= fold_left Qmax xs x0)%Q /\
    (forall y, In y xs -> (y <= fold_left Qmax xs x0)%Q).
Proof.
  induction xs as [|x xs IH]; intros x0; cbn [fold_left].
  - split; [lra|]. intros y [].
  - destruct (IH (Qmax x0 x)) as [Hinit Hall].
    pose proof (Q.le_max_l x0 x). pose proof (Q.le_max_r x0 x).
    split; [lra|]. intros y [<-|Hy]; [lra|now apply Hall].
Qed.

Lemma maxBAC_spec (pts : list Point.t) :
  (0.08 <= Chart.maxBAC pts)%Q /\
  (forall p, In p pts -> (Point.bac p <= Chart.maxBAC pts)%Q).
Proof.
  unfold Chart.maxBAC.
  destruct (fold_Qmax_spec (map Point.bac pts) 0.08%Q) as [Hinit Hall].
  split; [exact Hinit|]. intros p Hp. apply Hall. now apply in_map.
Qed.

Lemma ratio_bounds (a b : Q) :
  (0 < b)%Q -> (0 <= a)%Q -> (a <= b)%Q -> (0 <= a / b)%Q /\ (a / b <= 1)%Q.
Proof.
  intros Hb Ha Hab. split.
  - apply Qle_shift_div_l; [exact Hb|lra].
  - apply Qle_shift_div_r; [exact Hb|lra].
Qed.

(** The vertical scale on finite values: [maxBAC] is at least 0.08, so
    every sample with a finite BAC that is not negative is drawn between
    the top margin (y = 6) and the baseline (y = 44), and the 0.05 line
    lies between y = 20.25 and the baseline, that is never at the top of
    the plot.  (The values of this model are rationals, all finite; the
    line can sit on the baseline itself once [maxBAC] is so large that
    binary64 rounds [0.05 / maxBAC * 38] away.) *)
Theorem getY_stays_in_plot (pts : list Point.t) :
  (0.08 <= Chart.maxBAC pts)%Q /\
  (forall p, In p pts -> (0 <= Point.bac p)%Q ->
     (6 <= Chart.getY pts (Point.bac p))%Q /\
     (Chart.getY pts (Point.bac p) <= 44)%Q) /\
  (20.25 <= Chart.y05 pts)%Q /\ (Chart.y05 pts <= 44)%Q.
Proof.
  destruct (maxBAC_spec pts) as [Hmax Hall].
  assert (Hpos : (0 < Chart.maxBAC pts)%Q) by lra.
  split; [exact Hmax|]. split.
  - intros p Hp Hp0.
    destruct (ratio_bounds (Point.bac p) (Chart.maxBAC pts) Hpos Hp0
                (Hall p Hp)) as [H0 H1].
    unfold Chart.getY, Chart.height, Chart.padding. split; lra.
  - unfold Chart.y05, Chart.getY, Chart.height, Chart.padding.
    assert (H0 : (0 < 0.05 / Chart.maxBAC pts)%Q).
    { apply Qlt_shift_div_l; [exact Hpos|lra]. }
    assert (H1 : (0.05 / Chart.maxBAC pts <= 0.625)%Q).
    { apply Qle_shift_div_r; [exact Hpos|lra]. }
    split; lra.
Qed.

Lemma getY_stays_in_plot_witness :
  (6 <= Chart.getY risingThenFalling 0.09)%Q /\
  (Chart.getY risingThenFalling 0.09 <= 44)%Q.
Proof.
  destruct (getY_stays_in_plot risingThenFalling) as (_ & H & _).
  apply (H (Point.mk 300000 0.09%Q "20:05")).
  - right. left. reflexivity.
  - discriminate.
Defined.

Section ChartOfRun.

Variable fmt : Z -> string.
Variable drinks : list Drink.
Variables FH SH w : Q.
Variable g : Gender.
Hypothesis drinks_nonempty : drinks <> [].

Local Abbreviation pts := (points fmt drinks FH SH w g).
Local Abbreviation n := (List.length pts).
Local Abbreviation t0 := (startTimeOf drinks).

Lemma run_length : (2 <= n <= 289)%nat.
Proof. apply points_length, drinks_nonempty. Qed.

Lemma run_minTime : Chart.minTime pts = t0.
Proof.
  unfold Chart.minTime. pose proof run_length.
  rewrite sample_time by (try assumption; lia). lia.
Qed.

Lemma run_maxTime : Chart.maxTime pts = t0 + Z.of_nat (n - 1) * stepMs.
Proof.
  unfold Chart.maxTime. pose proof run_length.
  rewrite sample_time by (try assumption; lia). reflexivity.
Qed.

Lemma run_timeRange : Chart.timeRange pts = Z.of_nat (n - 1) * stepMs.
Proof.
  unfold Chart.timeRange. rewrite run_minTime, run_maxTime.
  pose proof run_length.
  replace (_ =? 0) with false; [lia|].
  symmetry. apply Z.eqb_neq. unfold stepMs. lia.
Qed.

Lemma run_timeRange_pos : 0 < Chart.timeRange pts.
Proof.
  rewrite run_timeRange. pose proof run_length. unfold stepMs. lia.
Qed.

Lemma run_getX_bounds (t : Z) :
  Chart.minTime pts <= t <= Chart.maxTime pts ->
  (6 <= Chart.getX pts t)%Q /\ (Chart.getX pts t <= 94)%Q.
Proof.
  intros Ht. pose proof run_timeRange_pos as Hpos.
  assert (Hr : Chart.timeRange pts = Chart.maxTime pts - Chart.minTime pts).
  { rewrite run_timeRange, run_minTime, run_maxTime. lia. }
  destruct (ratio_bounds (inject_Z (t - Chart.minTime pts))
                         (inject_Z (Chart.timeRange pts))) as [H0 H1].
  - change 0%Q with (inject_Z 0). rewrite <- Zlt_Qlt. exact Hpos.
  - change 0%Q with (inject_Z 0). rewrite <- Zle_Qle. lia.
  - rewrite <- Zle_Qle. lia.
  - unfold Chart.getX, Chart.width, Chart.padding. split; lra.
Qed.

Lemma run_getX_lt (t t' : Z) :
  t < t' -> (Chart.getX pts t < Chart.getX pts t')%Q.
Proof.
  intros Htt. pose proof run_timeRange_pos as Hpos.
  unfold Chart.getX, Chart.width, Chart.padding.
  assert (Hlt : (inject_Z (t - Chart.minTime pts) / inject_Z (Chart.timeRange pts)
                 < inject_Z (t' - Chart.minTime pts)
                   / inject_Z (Chart.timeRange pts))%Q).
  { unfold Qdiv. apply Qmult_lt_compat_r.
    - apply Qinv_lt_0_compat. change 0%Q with (inject_Z 0).
      rewrite <- Zlt_Qlt. exact Hpos.
    - rewrite <- Zlt_Qlt. lia. }
  lra.
Qed.

End ChartOfRun.

(** On the samples of a run the horizontal scale is never degenerate: the
    chart is drawn, the time range is positive (the fallback [|| 1] is not
    taken), the first sample is at the left margin (x = 6), the last one
    at the right margin (x = 94), every sample and every instant of the
    run lies between them, and a later instant is drawn strictly to the
    right of an earlier one. *)
Theorem getX_spans_the_plot (fmt : Z -> string) (drinks : list Drink)
    (FH SH w : Q) (g : Gender) :
  drinks <> [] ->
  let pts := points fmt drinks FH SH w g in
  let n := List.length pts in
  Chart.drawn pts = true /\
  Chart.timeRange pts = Z.of_nat (n - 1) * 300000 /\
  0 < Chart.timeRange pts /\
  (Chart.getX pts (Point.time (at_ pts 0)) == 6)%Q /\
  (Chart.getX pts (Point.time (at_ pts (n - 1))) == 94)%Q /\
  (forall t, Chart.minTime pts <= t <= Chart.maxTime pts ->
     (6 <= Chart.getX pts t)%Q /\ (Chart.getX pts t <= 94)%Q) /\
  (forall i, (i < n)%nat ->
     (6 <= Chart.getX pts (Point.time (at_ pts i)))%Q /\
     (Chart.getX pts (Point.time (at_ pts i)) <= 94)%Q) /\
  (forall t t', t < t' -> (Chart.getX pts t < Chart.getX pts t')%Q).
Proof.
  intros Hne pts n.
  pose proof (run_length fmt drinks FH SH w g Hne) as Hlen. fold pts n in Hlen.
  pose proof (run_timeRange_pos fmt drinks FH SH w g Hne) as Hpos.
  fold pts in Hpos.
  split; [|split; [|split; [|split; [|split; [|split; [|split]]]]]].
  - unfold Chart.drawn. apply negb_true_iff, Nat.ltb_ge. exact (proj1 Hlen).
  - apply run_timeRange, Hne.
  - exact Hpos.
  - unfold Chart.getX.
    change (Point.time (at_ pts 0)) with (Chart.minTime pts).
    rewrite Z.sub_diag.
    unfold Chart.width, Chart.padding, Qdiv. change (inject_Z 0) with 0%Q.
    ring.
  - unfold Chart.getX.
    change (Point.time (at_ pts (n - 1))) with (Chart.maxTime pts).
    replace (Chart.maxTime pts - Chart.minTime pts)
      with (Chart.timeRange pts).
    + unfold Chart.width, Chart.padding. field.
      intros H0.
      apply (proj1 (inject_Z_injective (Chart.timeRange pts) 0)) in H0.
      rewrite H0 in Hpos. lia.
    + unfold pts. rewrite run_timeRange, run_minTime, run_maxTime by exact Hne.
      lia.
  - intros t Ht. now apply run_getX_bounds.
  - intros i Hi. apply run_getX_bounds; [exact Hne|].
    unfold pts in *.
    rewrite run_minTime, run_maxTime, sample_time by (try assumption; lia).
    unfold stepMs. lia.
  - intros t t' Htt. now apply run_getX_lt.
Qed.

Lemma getX_spans_the_plot_witness :
  (Chart.getX (points utcLabel [nipLight] 2 1 80 male)
              (Point.time (at_ (points utcLabel [nipLight] 2 1 80 male) 0))
   == 6)%Q.
Proof.
  apply (getX_spans_the_plot utcLabel [nipLight] 2 1 80 male).
  discriminate.
Defined.

Lemma closest_fold (now : Z) (others : list Point.t) :
  forall prev,
    let c := fold_left
               (fun prev curr =>
                  if Z.abs (Point.time curr - now) <? Z.abs (Point.time prev - now)
                  then curr else prev)
               others prev in
    In c (prev :: others) /\
    Z.abs (Point.time c - now) <= Z.abs (Point.time prev - now) /\
    (forall p, In p others ->
       Z.abs (Point.time c - now) <= Z.abs (Point.time p - now)).
Proof.
  induction others as [|x others IH]; intros prev; cbn [fold_left].
  - split; [now left|]. split; [lia|]. intros p [].
  - destruct (Z.abs (Point.time x - now) <? Z.abs (Point.time prev - now))
      eqn:E; [apply Z.ltb_lt in E|apply Z.ltb_ge in E].
    + destruct (IH x) as (Hin & Hle & Hall). cbv zeta in *.
      split; [|split].
      * destruct Hin as [<-|Hin]; [right; now left|right; now right].
      * lia.
      * intros p [<-|Hp]; [exact Hle|now apply Hall].
    + destruct (IH prev) as (Hin & Hle & Hall). cbv zeta in *.
      split; [|split].
      * destruct Hin as [<-|Hin]; [now left|right; now right].
      * exact Hle.
      * intros p [<-|Hp]; [lia|now apply Hall].
Qed.

Lemma closest_spec (pts : list Point.t) (now : Z) :
  pts <> [] ->
  exists c, Chart.closest pts now = Some c /\ In c pts /\
            forall p, In p pts ->
              Z.abs (Point.time c - now) <= Z.abs (Point.time p - now).
Proof.
  intros Hne. destruct pts as [|first others]; [easy|].
  destruct (closest_fold now others first) as (Hin & Hle & Hall).
  cbv zeta in *. eexists. split; [reflexivity|]. split; [exact Hin|].
  intros p [<-|Hp]; [exact Hle|now apply Hall].
Qed.

(** The NOW marker is drawn exactly when the clock is within the run, from
    its first to its last sample.  It then sits inside the plot
    horizontally, and its height is that of a sample nearest in time to the
    clock, which is at most half a step (150000 ms) away. *)
Theorem nowMarker_on_nearest_sample (fmt : Z -> string) (drinks : list Drink)
    (FH SH w : Q) (g : Gender) (now : Z) :
  drinks <> [] ->
  let pts := points fmt drinks FH SH w g in
  (Chart.nowMarker pts now = None <->
   ~ Chart.minTime pts <= now <= Chart.maxTime pts) /\
  (Chart.minTime pts <= now <= Chart.maxTime pts ->
   exists c,
     Chart.nowMarker pts now
     = Some (Chart.getX pts now, Chart.getY pts (Point.bac c)) /\
     In c pts /\
     (forall p, In p pts ->
        Z.abs (Point.time c - now) <= Z.abs (Point.time p - now)) /\
     Z.abs (Point.time c - now) <= 150000 /\
     (6 <= Chart.getX pts now)%Q /\ (Chart.getX pts now <= 94)%Q).
Proof.
  intros Hne pts.
  pose proof (run_length fmt drinks FH SH w g Hne) as Hlen. fold pts in Hlen.
  assert (Hpts : pts <> []) by (destruct pts; [cbn in Hlen; lia|easy]).
  destruct (closest_spec pts now Hpts) as (c & Hc & Hin & Hnear).
  unfold Chart.nowMarker. rewrite Hc. cbn [option_map].
  split.
  - destruct ((now >=? Chart.minTime pts) && (now <=? Chart.maxTime pts))
      eqn:E.
    + apply andb_true_iff in E. rewrite Z.geb_le, Z.leb_le in E.
      split; [discriminate|]. intros H. now destruct H.
    + apply andb_false_iff in E. rewrite Z.geb_leb, !Z.leb_gt in E.
      split; [|reflexivity]. intros _ H. lia.
  - intros Hnow.
    replace ((now >=? Chart.minTime pts) && (now <=? Chart.maxTime pts))
      with true
      by (symmetry; apply andb_true_iff; rewrite Z.geb_le, Z.leb_le; lia).
    exists c. split; [reflexivity|]. split; [exact Hin|].
    split; [exact Hnear|]. split.
    + set (i := Z.to_nat ((now - startTimeOf drinks + 150000) / 300000)).
      unfold pts in Hnow.
      rewrite run_minTime, run_maxTime in Hnow by exact Hne.
      fold pts in Hnow. unfold stepMs in Hnow.
      pose proof (Z.div_mod (now - startTimeOf drinks + 150000) 300000
                    ltac:(lia)) as Hdm.
      pose proof (Z.mod_pos_bound (now - startTimeOf drinks + 150000) 300000
                    ltac:(lia)) as Hmod.
      assert (Hq : 0 <= (now - startTimeOf drinks + 150000) / 300000)
        by (apply Z.div_pos; lia).
      assert (Hi : (i < List.length pts)%nat) by (unfold i; lia).
      specialize (Hnear (at_ pts i) (nth_In pts noPoint Hi)).
      unfold pts in Hnear.
      rewrite sample_time in Hnear by (try assumption; exact Hi).
      unfold stepMs, i in Hnear. rewrite Z2Nat.id in Hnear by exact Hq.
      lia.
    + now apply run_getX_bounds.
Qed.

Lemma nowMarker_on_nearest_sample_witness :
  Chart.nowMarker (points utcLabel [nipLight] 2 1 80 male) (eightPm + 86400000)
  = None.
Proof.
  apply (nowMarker_on_nearest_sample utcLabel [nipLight] 2 1 80 male
           (eightPm + 86400000)).
  - discriminate.
  - vm_compute. intros [_ H]. apply H. reflexivity.
Defined.

(** The sober-time marker goes with the headline.  On a run that starts
    after the epoch, the headline reads [Likely under 0.05 limit] and no
    marker is drawn exactly when the peak is below 0.05; otherwise the
    headline gives the label of a sample at or after the peak, and the
    marker is drawn on the 0.05 line at the time of that sample, inside
    the plot. *)
Theorem soberMarker_goes_with_headline (fmt : Z -> string)
    (drinks : list Drink) (FH SH w : Q) (g : Gender) :
  drinks <> [] -> 0 < startTimeOf drinks ->
  let pts := points fmt drinks FH SH w g in
  let info := soberTimeInfo pts in
  let peak := bacAt pts (findPeakIndex pts) in
  ((peak < 0.05)%Q ->
   Chart.headline info = Chart.LikelyUnder /\
   Chart.soberMarker pts info = None) /\
  ((0.05 <= peak)%Q ->
   exists i,
     (findPeakIndex pts <= i < List.length pts)%nat /\
     Chart.headline info = Chart.BelowAt (Some (Point.label (at_ pts i))) /\
     Chart.soberMarker pts info
     = Some (Chart.getX pts (Point.time (at_ pts i)), Chart.y05 pts) /\
     (6 <= Chart.getX pts (Point.time (at_ pts i)))%Q /\
     (Chart.getX pts (Point.time (at_ pts i)) <= 94)%Q).
Proof.
  intros Hne Hepoch pts info peak.
  pose proof (run_length fmt drinks FH SH w g Hne) as Hlen. fold pts in Hlen.
  assert (Hpts : pts <> []) by (destruct pts; [cbn in Hlen; lia|easy]).
  destruct (findPeakIndex_spec pts Hpts) as (Hk & _ & _).
  assert (Htime : forall i, (i < List.length pts)%nat ->
            (Point.time (at_ pts i) =? 0) = false /\
            Chart.minTime pts <= Point.time (at_ pts i) <= Chart.maxTime pts).
  { intros i Hi. unfold pts in *.
    rewrite run_minTime, run_maxTime, sample_time by (try assumption; lia).
    unfold stepMs. split; [apply Z.eqb_neq|]; lia. }
  unfold info, soberTimeInfo.
  replace (List.length pts =? 0)%nat with false
    by (symmetry; apply Nat.eqb_neq; lia).
  fold (bacAt pts (findPeakIndex pts)). fold peak.
  split.
  - intros Hlow. apply Qltb_true in Hlow. rewrite Hlow. split; reflexivity.
  - intros Hhigh. apply Qltb_false in Hhigh. rewrite Hhigh.
    destruct (find _ _) as [i|] eqn:Ef.
    + apply find_seq_some in Ef. destruct Ef as (Hi & _ & _).
      destruct (Htime i ltac:(lia)) as [Hz Hin].
      exists i. split; [lia|]. split; [reflexivity|].
      cbn [Chart.soberMarker Info.status Info.time]. rewrite Hz.
      split; [reflexivity|]. now apply run_getX_bounds.
    + destruct (Htime (List.length pts - 1)%nat ltac:(lia)) as [Hz Hin].
      exists (List.length pts - 1)%nat. split; [lia|].
      split; [reflexivity|].
      cbn [Chart.soberMarker Info.status Info.time]. rewrite Hz.
      split; [reflexivity|]. now apply run_getX_bounds.
Qed.

Lemma soberMarker_goes_with_headline_witness :
  let pts := points utcLabel [nipLight] 2 1 80 male in
  Chart.headline (soberTimeInfo pts) = Chart.LikelyUnder /\
  Chart.soberMarker pts (soberTimeInfo pts) = None.
Proof.
  apply (soberMarker_goes_with_headline utcLabel [nipLight] 2 1 80 male).
  - discriminate.
  - reflexivity.
  - vm_compute. reflexivity.
Defined.

(** ** Naming a drink *)

Lemma matchAt_shorter (s rest : string) :
  ManualCalculator.matchAt s = Some rest ->
  (String.length rest < String.length s)%nat.
Proof.
  assert (Hdrop : forall s, (String.length (ManualCalculator.dropSpaces s)
                             <= String.length s)%nat).
  { induction s0 as [|c r IH]; cbn; [lia|].
    destruct (ManualCalculator.isSpace c); cbn; lia. }
  assert (Hclose : forall s r, ManualCalculator.closeParen s = Some r ->
                     (String.length r < String.length s)%nat).
  { induction s0 as [|c r0 IH]; cbn; intros r H; [discriminate|].
    destruct (Ascii.eqb c ")").
    - injection H as <-. lia.
    - destruct (ManualCalculator.isLineTerminator c); [discriminate|].
      specialize (IH r H). lia. }
  unfold ManualCalculator.matchAt. intros H.
  pose proof (Hdrop s) as Hd.
  destruct (ManualCalculator.dropSpaces s) as [|c r]; [discriminate|].
  destruct (Ascii.eqb c "("); [|discriminate].
  destruct (ManualCalculator.closeParen r) as [r'|] eqn:Er; [|discriminate].
  cbn in H. injection H as <-.
  pose proof (Hclose r r' Er). pose proof (Hdrop r'). cbn in Hd. lia.
Qed.

Lemma stripParensFuel_enough (fuel1 : nat) :
  forall fuel2 s,
    (String.length s < fuel1)%nat -> (String.length s < fuel2)%nat ->
    ManualCalculator.stripParensFuel fuel1 s
    = ManualCalculator.stripParensFuel fuel2 s.
Proof.
  induction fuel1 as [|fuel1 IH]; intros fuel2 s H1 H2; [lia|].
  destruct fuel2 as [|fuel2]; [lia|].
  cbn [ManualCalculator.stripParensFuel].
  destruct (ManualCalculator.matchAt s) as [rest|] eqn:E.
  - apply matchAt_shorter in E. apply IH; lia.
  - destruct s as [|c rest]; [reflexivity|]. f_equal.
    cbn in H1, H2. apply IH; lia.
Qed.

(** The wine-bottle case of [generatedName] is never reached: 750 ml is
    found as [Longneck] first, so no volume gets the label
    [Bottle (Wine)].  On every label the lookup can return, removing the
    parenthesised part changes nothing, and a name built from two labels is
    [{size} of {strength}].  What the removal would do to the unreachable
    label is [Bottle]; it never needs fuel beyond the length of the
    string. *)
Theorem generatedName_of_two_labels (show : Q -> string) (volume abv : Q) :
  ManualCalculator.labelOf ManualCalculator.COMMON_SIZES volume
  <> Some "Bottle (Wine)"%string /\
  ((volume == 750)%Q ->
   ManualCalculator.labelOf ManualCalculator.COMMON_SIZES volume
   = Some "Longneck"%string) /\
  (forall sizeLabel abvLabel,
     ManualCalculator.labelOf ManualCalculator.COMMON_SIZES volume
     = Some sizeLabel ->
     ManualCalculator.labelOf ManualCalculator.COMMON_ABV abv
     = Some abvLabel ->
     ManualCalculator.stripParens sizeLabel = sizeLabel /\
     ManualCalculator.generatedName show volume abv
     = (sizeLabel ++ " of " ++ abvLabel)%string) /\
  ManualCalculator.stripParens "Bottle (Wine)" = "Bottle"%string /\
  (forall fuel s, (String.length s < fuel)%nat ->
     ManualCalculator.stripParensFuel fuel s = ManualCalculator.stripParens s).
Proof.
  assert (Hclean : forall sizeLabel,
            ManualCalculator.labelOf ManualCalculator.COMMON_SIZES volume
            = Some sizeLabel ->
            ManualCalculator.stripParens sizeLabel = sizeLabel /\
            sizeLabel <> "Bottle (Wine)"%string).
  { intros sizeLabel.
    unfold ManualCalculator.labelOf, ManualCalculator.COMMON_SIZES.
    cbn [find snd fst].
    repeat (destruct (Qeq_bool _ volume);
            [cbn [option_map fst]; intros [= <-]; split;
             [reflexivity|discriminate]|]).
    discriminate. }
  split; [|split; [|split; [|split]]].
  - intros H. now destruct (Hclean _ H).
  - intros Hv. unfold ManualCalculator.labelOf, ManualCalculator.COMMON_SIZES.
    cbn [find snd fst].
    assert (H750 : Qeq_bool 750 volume = true)
      by (apply Qeq_bool_iff; now symmetry).
    repeat match goal with
           | |- context [Qeq_bool ?c volume] =>
               lazymatch c with
               | 750%Q => rewrite H750
               | _ =>
                   replace (Qeq_bool c volume) with false
                     by (symmetry; apply not_true_iff_false;
                         rewrite Qeq_bool_iff, Hv; discriminate)
               end
           end.
    reflexivity.
  - intros sizeLabel abvLabel Hs Ha.
    destruct (Hclean sizeLabel Hs) as [Hc _]. split; [exact Hc|].
    unfold ManualCalculator.generatedName. now rewrite Hs, Ha, Hc.
  - reflexivity.
  - intros fuel s Hfuel. unfold ManualCalculator.stripParens.
    apply stripParensFuel_enough; lia.
Qed.

Lemma generatedName_of_two_labels_witness :
  ManualCalculator.generatedName (fun _ => EmptyString) 750 13.5
  = "Longneck of Red Wine"%string.
Proof.
  destruct (generatedName_of_two_labels (fun _ => EmptyString) 750 13.5)
    as (_ & _ & H & _).
  apply (H "Longneck"%string "Red Wine"%string); reflexivity.
Defined.

(** * The simulation in binary64 *)

(** ** The sort, on drinks with binary64 quantities *)

Lemma f64_insert_perm (d : F64.Drink) (l : list F64.Drink) :
  Permutation (F64.insert d l) (d :: l).
Proof.
  induction l as [|x xs IH]; cbn [F64.insert].
  - reflexivity.
  - destruct (F64.timestamp d <=? F64.timestamp x).
    + reflexivity.
    + rewrite IH. apply perm_swap.
Qed.

Lemma f64_sortDrinks_perm (l : list F64.Drink) :
  Permutation (F64.sortDrinks l) l.
Proof.
  induction l as [|d ds IH]; cbn [F64.sortDrinks].
  - reflexivity.
  - rewrite f64_insert_perm. now constructor.
Qed.

Lemma f64_insert_sorted (d : F64.Drink) (l : list F64.Drink) :
  StronglySorted F64.byTimestamp l ->
  StronglySorted F64.byTimestamp (F64.insert d l).
Proof.
  induction 1 as [|x xs Hxs IH Hx]; cbn [F64.insert].
  - repeat constructor.
  - destruct (F64.timestamp d <=? F64.timestamp x) eqn:E.
    + apply Z.leb_le in E. constructor.
      * now constructor.
      * constructor; [exact E|].
        eapply Forall_impl; [|exact Hx].
        unfold F64.byTimestamp; intros; lia.
    + apply Z.leb_gt in E. constructor; [exact IH|].
      rewrite (Forall_forall (F64.byTimestamp x)). intros y Hy.
      apply (Permutation_in _ (f64_insert_perm d xs)) in Hy.
      destruct Hy as [<-|Hy].
      * unfold F64.byTimestamp; lia.
      * rewrite Forall_forall in Hx. now apply Hx.
Qed.

Lemma f64_sortDrinks_sorted (l : list F64.Drink) :
  StronglySorted F64.byTimestamp (F64.sortDrinks l).
Proof.
  induction l as [|d ds IH]; cbn [F64.sortDrinks].
  - constructor.
  - now apply f64_insert_sorted.
Qed.

Lemma f64_insert_stable (t : Z) (d : F64.Drink) (l : list F64.Drink) :
  F64.at_time t (F64.insert d l) = F64.at_time t (d :: l).
Proof.
  unfold F64.at_time. induction l as [|x xs IH]; cbn [F64.insert].
  - reflexivity.
  - destruct (F64.timestamp d <=? F64.timestamp x) eqn:E; [reflexivity|].
    apply Z.leb_gt in E.
    cbn [filter] in *. rewrite IH.
    destruct (F64.timestamp d =? t) eqn:Ed; [|reflexivity].
    apply Z.eqb_eq in Ed.
    destruct (F64.timestamp x =? t) eqn:Ex; [|reflexivity].
    apply Z.eqb_eq in Ex. lia.
Qed.

Lemma f64_sortDrinks_stable (t : Z) (l : list F64.Drink) :
  F64.at_time t (F64.sortDrinks l) = F64.at_time t l.
Proof.
  induction l as [|d ds IH]; cbn [F64.sortDrinks].
  - reflexivity.
  - rewrite f64_insert_stable. unfold F64.at_time in *. cbn [filter].
    now rewrite IH.
Qed.

(** A sorted list is determined by its drinks at each timestamp, taken in
    order. *)
Lemma f64_sorted_unique (s1 : list F64.Drink) :
  forall s2,
    StronglySorted F64.byTimestamp s1 ->
    StronglySorted F64.byTimestamp s2 ->
    (forall t, F64.at_time t s1 = F64.at_time t s2) ->
    s1 = s2.
Proof.
  induction s1 as [|a r1 IH]; intros s2 H1 H2 Hat.
  - destruct s2 as [|b r2]; [reflexivity|].
    specialize (Hat (F64.timestamp b)). unfold F64.at_time in Hat.
    cbn [filter] in Hat. rewrite Z.eqb_refl in Hat. discriminate.
  - destruct s2 as [|b r2].
    + specialize (Hat (F64.timestamp a)). unfold F64.at_time in Hat.
      cbn [filter] in Hat. rewrite Z.eqb_refl in Hat. discriminate.
    + apply StronglySorted_inv in H1. destruct H1 as [H1 Ha].
      apply StronglySorted_inv in H2. destruct H2 as [H2 Hb].
      rewrite Forall_forall in Ha, Hb.
      assert (Hin : forall x s t, In x (F64.at_time t s) -> In x s)
        by (intros x s t Hx; apply filter_In in Hx; tauto).
      assert (Hab : F64.timestamp a = F64.timestamp b).
      { pose proof (Hat (F64.timestamp a)) as Ea.
        pose proof (Hat (F64.timestamp b)) as Eb.
        unfold F64.at_time in Ea, Eb. cbn [filter] in Ea, Eb.
        rewrite Z.eqb_refl in Ea, Eb.
        assert (Ia : In a (b :: r2)).
        { apply (Hin a (b :: r2) (F64.timestamp a)).
          unfold F64.at_time. cbn [filter]. rewrite <- Ea. now left. }
        assert (Ib : In b (a :: r1)).
        { apply (Hin b (a :: r1) (F64.timestamp b)).
          unfold F64.at_time. cbn [filter]. rewrite Eb. now left. }
        destruct Ia as [->|Ia]; [reflexivity|].
        destruct Ib as [->|Ib]; [reflexivity|].
        pose proof (Ha b Ib). pose proof (Hb a Ia).
        unfold F64.byTimestamp in *. lia. }
      assert (Eab : a = b).
      { specialize (Hat (F64.timestamp a)). unfold F64.at_time in Hat.
        cbn [filter] in Hat. rewrite <- Hab, Z.eqb_refl in Hat.
        now injection Hat. }
      subst b. f_equal. apply IH; try assumption.
      intros t. specialize (Hat t). unfold F64.at_time in *.
      cbn [filter] in Hat.
      destruct (F64.timestamp a =? t); [now injection Hat|exact Hat].
Qed.

Lemma f64_sort_eq (l1 l2 : list F64.Drink) :
  (forall t, F64.at_time t l1 = F64.at_time t l2) ->
  F64.sortDrinks l1 = F64.sortDrinks l2.
Proof.
  intros Hat. apply f64_sorted_unique; try apply f64_sortDrinks_sorted.
  intros t. now rewrite !f64_sortDrinks_stable.
Qed.

(** The simulation reads its input through the sorted copy only. *)
Lemma f64_points_sorted (fmt : Z -> string) (l1 l2 : list F64.Drink)
    (FH SH w : float) (g : Gender) :
  F64.sortDrinks l1 = F64.sortDrinks l2 ->
  F64.points fmt l1 FH SH w g = F64.points fmt l2 FH SH w g.
Proof.
  intros Hs. unfold F64.points, F64.pointsFuel.
  assert (Hlen : List.length l1 = List.length l2).
  { rewrite <- (Permutation_length (f64_sortDrinks_perm l1)).
    rewrite <- (Permutation_length (f64_sortDrinks_perm l2)).
    now rewrite Hs. }
  now rewrite Hlen, Hs.
Qed.

Lemma f64_at_time_short (t : Z) (l : list F64.Drink) :
  NoDup (map F64.timestamp l) -> (List.length (F64.at_time t l) <= 1)%nat.
Proof.
  unfold F64.at_time. induction l as [|x l IH]; intros Hnd;
    cbn [filter List.length]; [lia|].
  cbn [map] in Hnd. apply NoDup_cons_iff in Hnd. destruct Hnd as [Hx Hnd].
  specialize (IH Hnd).
  destruct (F64.timestamp x =? t) eqn:E; [|lia].
  apply Z.eqb_eq in E. cbn [List.length].
  destruct (filter (fun d => F64.timestamp d =? t) l) as [|y ys] eqn:Ef;
    [cbn; lia|].
  exfalso. apply Hx.
  assert (Hy : In y (filter (fun d => F64.timestamp d =? t) l))
    by (rewrite Ef; now left).
  apply filter_In in Hy. destruct Hy as [Hy Ety]. apply Z.eqb_eq in Ety.
  rewrite E, <- Ety. now apply in_map.
Qed.

Lemma f64_at_time_distinct (t : Z) (l1 l2 : list F64.Drink) :
  Permutation l1 l2 -> NoDup (map F64.timestamp l1) ->
  F64.at_time t l1 = F64.at_time t l2.
Proof.
  intros Hp Hnd.
  pose proof (f64_at_time_short t l1 Hnd) as Hshort.
  assert (Hpf : Permutation (F64.at_time t l1) (F64.at_time t l2))
    by (apply filter_perm, Hp).
  destruct (F64.at_time t l1) as [|x [|y ys]].
  - apply Permutation_nil in Hpf. now rewrite Hpf.
  - apply Permutation_length_1_inv in Hpf. now rewrite Hpf.
  - cbn in Hshort. lia.
Qed.

(** ** C5: the order of the input list, in binary64 *)

(** C5, as the code has it.  The simulation gives the same sample sequence
    on two drink lists when the drinks of each timestamp come in the same
    order in both; that is so for any two lists that are permutations of
    each other when the timestamps are distinct.  The sort is stable and
    the units of the drinks of one interval are added in sorted order, so
    drinks tied on a timestamp are added in input order; in exact
    arithmetic that order does not matter either, and every permutation
    gives the same sequence. *)
Theorem order_independence_up_to_ties (fmt : Z -> string)
    (drinks1 drinks2 : list F64.Drink) (FH SH w : float) (g : Gender) :
  ((forall t, F64.at_time t drinks1 = F64.at_time t drinks2) ->
   F64.points fmt drinks1 FH SH w g = F64.points fmt drinks2 FH SH w g) /\
  (Permutation drinks1 drinks2 -> NoDup (map F64.timestamp drinks1) ->
   F64.points fmt drinks1 FH SH w g = F64.points fmt drinks2 FH SH w g) /\
  (forall (exact1 exact2 : list Drink) (FH' SH' w' : Q),
     Permutation exact1 exact2 ->
     points fmt exact1 FH' SH' w' g = points fmt exact2 FH' SH' w' g).
Proof.
  split; [|split].
  - intros Hat. now apply f64_points_sorted, f64_sort_eq.
  - intros Hp Hnd. apply f64_points_sorted, f64_sort_eq.
    intros t. now apply f64_at_time_distinct.
  - intros exact1 exact2 FH' SH' w' Hp. now apply points_perm_exact.
Qed.

Lemma order_independence_up_to_ties_witness :
  F64.points utcLabel [F64.pintLater; F64.pint] 2 1 80 male
  = F64.points utcLabel [F64.pint; F64.pintLater] 2 1 80 male.
Proof.
  apply (order_independence_up_to_ties utcLabel [F64.pintLater; F64.pint]
           [F64.pint; F64.pintLater] 2 1 80 male).
  - apply perm_swap.
  - repeat constructor; cbn; intuition discriminate.
Defined.

(** C5 as stated fails on the code: three drinks logged at the same
    instant, in two orders.  Their units add up to two different binary64
    numbers, and the first samples differ. *)
Lemma order_dependence_on_ties :
  ~ (forall drinks1 drinks2,
       Permutation drinks1 drinks2 ->
       F64.points utcLabel drinks1 2 1 80 male
       = F64.points utcLabel drinks2 2 1 80 male).
Proof.
  intros H.
  specialize (H [F64.nipLight; F64.nipMid; F64.potSpirits]
                [F64.potSpirits; F64.nipMid; F64.nipLight]).
  assert (Hp : Permutation [F64.nipLight; F64.nipMid; F64.potSpirits]
                           [F64.potSpirits; F64.nipMid; F64.nipLight])
    by (change [F64.potSpirits; F64.nipMid; F64.nipLight]
          with (rev [F64.nipLight; F64.nipMid; F64.potSpirits]);
        apply Permutation_rev).
  specialize (H Hp).
  apply (f_equal
           (fun pts =>
              match pts with
              | p :: _ => PrimFloat.eqb (F64.bac p) 0.16803959558823528%float
              | [] => false
              end)) in H.
  vm_compute in H. discriminate.
Qed.

(** ** C8: finiteness, in binary64 *)

(** C8 as stated fails on the code: a weight of 1e-320 is positive, so it
    is not replaced by 1, and the BAC of one pint divided by it overflows:
    the samples are infinite. *)
Lemma tiny_weight_gives_infinite_bac :
  PrimFloat.ltb 0 1e-320 = true /\
  ~ (forall p,
       In p (F64.points utcLabel [F64.pint] 2 1 1e-320 male) ->
       PrimFloat.is_finite (F64.bac p) = true).
Proof.
  split; [reflexivity|]. intros H.
  assert (E : exists p rest,
            F64.points utcLabel [F64.pint] 2 1 1e-320 male = p :: rest /\
            PrimFloat.is_finite (F64.bac p) = false).
  { eexists. eexists. split; [vm_compute; reflexivity|].
    vm_compute. reflexivity. }
  destruct E as (p & rest & Ep & Hp).
  rewrite H in Hp; [discriminate|]. rewrite Ep. now left.
Qed.
